(** * KAMIS market-price pipelines (fertilizer.py, livestock.py)

    A shallow embedding of the two scraping scripts: the paginated fetch,
    the normalisation of the scraped frame, the month-start rollover, the
    append and the read / drop / de-duplicate / rebuild pass.

    Text is a list of Unicode code points, a DataFrame is a list of column
    labels with a list of rows, and the BigQuery client is an oracle that
    answers every call from the history of the calls made so far, so that
    every theorem holds whatever the store does. *)

From stdpp Require Import base decidable option list numbers strings.
From Stdlib Require Import Ascii QArith Qcanon.

Local Open Scope Z_scope.

(** ** Text *)

(** A Python [str] is a sequence of code points. *)
Abbreviation char := Z (only parsing).
Abbreviation text := (list Z) (only parsing).

(** A literal of the scripts (all of them are ASCII). *)
Definition str (s : string) : text :=
  map (fun a => Z.of_N (N_of_ascii a)) (String.list_ascii_of_string s).

Definition in_range (lo hi c : char) : bool := (lo <=? c) && (c <=? hi).

Definition is_ascii_digit (c : char) : bool := in_range 48 57 c.
Definition is_ascii_upper (c : char) : bool := in_range 65 90 c.
Definition is_ascii_lower (c : char) : bool := in_range 97 122 c.

(** What the interpreter and pandas bring and the scripts only call:
    [str.lower] (Unicode case mapping, a function of the whole string since
    the final sigma depends on its context), the decimal digits outside
    ASCII that the pattern [\d] matches, and the parsers behind
    [pd.to_datetime], on one string and on one number ([None] when it
    raises). *)
Class Runtime := {
  py_lower : text -> text;
  uni_decimal : char -> bool;
  parse_date : text -> option (Z * Z * Z);
  date_of_number : Qc -> option (Z * Z * Z);
}.

(** The part of [str.lower] the development relies on. *)
Class RuntimeLaws (R : Runtime) : Prop := {
  lower_no_upper : forall s c, c ∈ py_lower s -> is_ascii_upper c = false;
  lower_fixed : forall s,
    Forall (fun c => is_ascii_upper c = false /\ c < 128) s -> py_lower s = s;
}.

(** [str.strip()] removes the characters for which [str.isspace] holds. *)
Definition is_space (c : char) : bool :=
  in_range 9 13 c || in_range 28 32 c || (c =? 133) || (c =? 160)
  || (c =? 5760) || in_range 8192 8202 c || (c =? 8232) || (c =? 8233)
  || (c =? 8239) || (c =? 8287) || (c =? 12288).

Fixpoint lstrip (s : text) : text :=
  match s with
  | c :: s' => if is_space c then lstrip s' else s
  | [] => []
  end.

Definition strip (s : text) : text := rev (lstrip (rev (lstrip s))).

(** [.str.replace(" ", "_")] *)
Definition replace_space (s : text) : text :=
  map (fun c => if c =? 32 then 95 else c) s.

(** The class [[0-9a-zA-Z_]] of the second [replace]. *)
Definition is_word (c : char) : bool :=
  is_ascii_digit c || is_ascii_lower c || is_ascii_upper c || (c =? 95).

(** [.str.replace(r"[^0-9a-zA-Z_]", "", regex=True)] *)
Definition strip_nonword (s : text) : text := filter (fun c => is_word c = true) s.

(** A character of a cleaned name: of the class the pattern keeps, and not
    an upper-case letter. *)
Definition canonical (c : char) : Prop :=
  is_word c = true /\ is_ascii_upper c = false.

Section Canonical.
Context `{R : Runtime}.

(** The chain assigned to [bigdata.columns]. *)
Definition clean_name (s : text) : text :=
  strip_nonword (replace_space (py_lower (strip s))).
End Canonical.

(** ** Cells, frames and exceptions *)

(** A cell of a DataFrame: missing (NaN, None, NaT), a string, a number or a
    timestamp.  Numbers are kept as canonical rationals: the decimal a float
    was read from, without the rounding to binary64. *)
Inductive cell :=
| NaN
| Text (s : text)
| Num (q : Qc)
| Date (year month day : Z).

Global Instance cell_eq_dec : EqDecision cell.
Proof. solve_decision. Defined.

(** A DataFrame with a default index: the column labels and the rows.
    The labels are strings, as [pd.read_html] reads them in the header row
    of a table.  A table without a header row gets integer labels, on which
    the [.str] accessor of the clean-names step raises [AttributeError]:
    such a frame ends the run there and is not represented. *)
Record frame := Frame { columns : list text; rows : list (list cell) }.

Global Instance frame_eq_dec : EqDecision frame.
Proof. solve_decision. Defined.

(** [pd.DataFrame()] *)
Definition empty_frame : frame := Frame [] [].

(** [df.empty]: one of the axes has length 0. *)
Definition empty (f : frame) : bool :=
  match rows f, columns f with
  | [], _ | _, [] => true
  | _, _ => false
  end.

(** The exceptions the scripts can meet; all of them derive from
    [Exception], and [NotFound] is the one the scripts name. *)
Inductive exn :=
| NotFound
| BadRequest
| GoogleAPIError
| KeyError
| ValueError
| AttributeError
| RequestException.

Global Instance exn_eq_dec : EqDecision exn.
Proof. solve_decision. Defined.

Inductive result (A : Type) :=
| Ok (a : A)
| Raise (e : exn).
Arguments Ok {A} a.
Arguments Raise {A} e.

Global Instance result_ret : MRet result := fun _ a => Ok a.
Global Instance result_bind : MBind result := fun _ _ k m =>
  match m with
  | Ok a => k a
  | Raise e => Raise e
  end.

(** ** Frame operations *)

(** The positions of a label among the columns. *)
Fixpoint positions (name : text) (cols : list text) (i : nat) : list nat :=
  match cols with
  | [] => []
  | c :: cols' =>
      if decide (c = name) then i :: positions name cols' (S i)
      else positions name cols' (S i)
  end.

Definition cell_at (i : nat) (r : list cell) : cell := default NaN (r !! i).

(** The value of a row under a label (the first column so named). *)
Definition lookup_cell (cols : list text) (name : text) (r : list cell) : cell :=
  match positions name cols 0 with
  | i :: _ => cell_at i r
  | [] => NaN
  end.

(** [df[name]]: a Series when the label is unique, a DataFrame when several
    columns carry it, [KeyError] when none does. *)
Inductive selection :=
| Series (i : nat) (values : list cell)
| SubFrame.

Definition getitem (name : text) (f : frame) : result selection :=
  match positions name (columns f) 0 with
  | [] => Raise KeyError
  | [i] => Ok (Series i (map (cell_at i) (rows f)))
  | _ => Ok SubFrame
  end.

(** [df[name] = values] for the column at position [i]; pandas refuses a
    value list whose length is not that of the index. *)
Definition setitem (i : nat) (values : list cell) (f : frame) : result frame :=
  if decide (length values = length (rows f)) then
    Ok (Frame (columns f) (zip_with (fun r v => <[i := v]> r) (rows f) values))
  else Raise ValueError.

(** [df.drop(columns=labels)]: every label must be present. *)
Definition drop_columns (labels : list text) (f : frame) : result frame :=
  if decide (Forall (fun l => l ∈ columns f) labels) then
    let keep := map (fun c => bool_decide (c ∉ labels)) (columns f) in
    Ok (Frame (filter (fun c => c ∉ labels) (columns f))
              (map (fun r => (filter (fun cv => cv.2 = true) (zip r keep)).*1) (rows f)))
  else Raise KeyError.

(** [df.reindex(columns=cols)] as [pd.concat] does it to its arguments. *)
Definition reindex (cols : list text) (f : frame) : list (list cell) :=
  map (fun r => map (fun c => lookup_cell (columns f) c r) cols) (rows f).

(** [pd.concat([a, b], ignore_index=True)]: the union of the columns in
    order of appearance, the rows of [a] then those of [b]. *)
Definition concat (a b : frame) : frame :=
  let cols := columns a ++ filter (fun c => c ∉ columns a) (columns b) in
  Frame cols (reindex cols a ++ reindex cols b).

(** ** Price extraction *)

Section Extraction.
Context `{R : Runtime}.

(** [\d] in a [str] pattern: a Unicode decimal digit. *)
Definition is_digit (c : char) : bool :=
  if c <? 128 then is_ascii_digit c else uni_decimal c.

(** The longest run of digits at the head of a text, and what follows. *)
Fixpoint span_digits (s : text) : text * text :=
  match s with
  | c :: s' =>
      if is_digit c then let '(ds, r) := span_digits s' in (c :: ds, r)
      else ([], s)
  | [] => ([], [])
  end.

(** The pattern of the scripts, one or more digits, an optional point,
    any number of digits, tried at the head of a text: every quantifier is
    greedy and none of them ever has to give a character back. *)
Definition match_here (s : text) : option text :=
  match span_digits s with
  | ([], _) => None
  | (ds, c :: r) =>
      if c =? 46 then Some (ds ++ 46 :: (span_digits r).1) else Some ds
  | (ds, []) => Some ds
  end.

(** [re.search]: the match at the leftmost position that has one. *)
Fixpoint search (s : text) : option text :=
  match match_here s with
  | Some m => Some m
  | None => match s with
            | _ :: s' => search s'
            | [] => None
            end
  end.

(** [.str.extract(pattern)[0]] on one cell: only strings are searched. *)
Definition extract (c : cell) : cell :=
  match c with
  | Text s => match search s with
              | Some m => Text m
              | None => NaN
              end
  | _ => NaN
  end.
End Extraction.

Definition digits_val (ds : text) : Z :=
  fold_left (fun acc c => 10 * acc + (c - 48)) ds 0.

(** The number pandas reads in a text of the shape the pattern yields,
    ASCII digits with an optional point and more digits.  It is given as
    the exact rational the text denotes; pandas holds it in an int64 or a
    binary64, which is that rational for an integer of up to fifteen
    digits and the nearest float, or infinity, otherwise. *)
Definition parse_decimal (s : text) : option Qc :=
  let fix split (s : text) : text * option text :=
    match s with
    | c :: s' =>
        if c =? 46 then ([], Some s')
        else let '(a, b) := split s' in (c :: a, b)
    | [] => ([], None)
    end in
  let '(ip, fp) := split s in
  let fr := default [] fp in
  if bool_decide (ip <> []) && forallb is_ascii_digit ip && forallb is_ascii_digit fr
  then Some (Q2Qc (digits_val (ip ++ fr) # Z.to_pos (10 ^ Z.of_nat (length fr))))
  else None.

(** [pd.to_numeric(..., errors='coerce')] on one cell of the extracted
    column: what does not parse becomes NaN. *)
Definition to_numeric (c : cell) : cell :=
  match c with
  | Text s => match parse_decimal s with
              | Some q => Num q
              | None => NaN
              end
  | Num q => Num q
  | _ => NaN
  end.

(** The [.str] accessor needs a column of strings: read_html gives a column
    without any string a numeric dtype. *)
Definition str_accessor (values : list cell) : result (list cell) :=
  if existsb (fun c => match c with Text _ => true | _ => false end) values
  then Ok values else Raise AttributeError.

(** ** Normalizer *)

Inductive pipeline := Fertilizer | Livestock.

Global Instance pipeline_eq_dec : EqDecision pipeline.
Proof. solve_decision. Defined.

Section Normalizer.
Context `{R : Runtime}.

(** [pd.to_datetime] on a column: missing values stay missing, timestamps
    stay, strings and numbers are converted, and one value that cannot be
    converted raises. *)
Fixpoint to_datetime (values : list cell) : result (list cell) :=
  match values with
  | [] => Ok []
  | v :: vs =>
      d ← match v with
          | NaN => Ok NaN
          | Date y m d => Ok (Date y m d)
          | Text s => match parse_date s with
                      | Some (y, m, d) => Ok (Date y m d)
                      | None => Raise ValueError
                      end
          | Num q => match date_of_number q with
                     | Some (y, m, d) => Ok (Date y m d)
                     | None => Raise ValueError
                     end
          end;
      ds ← to_datetime vs;
      Ok (d :: ds)
  end.

(** [bigdata['date'] = pd.to_datetime(bigdata['date'])] *)
Definition standardize_date (f : frame) : result frame :=
  sel ← getitem (str "date") f;
  match sel with
  | Series i values => ds ← to_datetime values; setitem i ds f
  | SubFrame => Raise ValueError
  end.

(** [bigdata[name] = pd.to_numeric(bigdata[name].str.extract(...)[0],
    errors='coerce')] *)
Definition standardize_price (name : text) (f : frame) : result frame :=
  sel ← getitem name f;
  match sel with
  | Series i values =>
      vs ← str_accessor values;
      setitem i (map (fun c => to_numeric (extract c)) vs) f
  | SubFrame => Raise AttributeError
  end.

(** Lines 85-99 of fertilizer.py, 88-99 of livestock.py. *)
Definition normalize (p : pipeline) (bigdata : frame) : result frame :=
  let bigdata := Frame (map clean_name (columns bigdata)) (rows bigdata) in
  bigdata ← standardize_date bigdata;
  bigdata ← standardize_price (str "wholesale") bigdata;
  bigdata ← standardize_price (str "retail") bigdata;
  match p with
  | Fertilizer => drop_columns [str "grade"; str "sex"] bigdata
  | Livestock => Ok bigdata
  end.
End Normalizer.

(** ** PagedFetcher *)

(** What [session.get] and the page behind a URL give: the request raises
    (time-out, connection error, retries exhausted), or a body arrives with
    the tables [pd.read_html] finds in it. *)
Inductive response :=
| RequestFailed
| Html (tables : list frame).

(** The site, by commodity id and offset.  One run asks for each URL once. *)
Definition web := Z -> Z -> response.

Definition commodities (p : pipeline) : list Z :=
  match p with
  | Fertilizer => [217]
  | Livestock => [140; 168; 167; 211; 227]
  end.

(** [pd.read_html] raises [ValueError] when the body has no table. *)
Definition read_html (tables : list frame) : result (list frame) :=
  match tables with
  | [] => Raise ValueError
  | _ => Ok tables
  end.

(** The body of the [try] of the pagination loop. *)
Definition get_page (w : web) (commodity offset : Z) : result (list frame) :=
  match w commodity offset with
  | RequestFailed => Raise RequestException
  | Html tables => read_html tables
  end.

(** The [while True] loop of one commodity; [None] when the fuel runs out
    before a page fails. *)
Fixpoint paginate (fuel : nat) (w : web) (commodity offset : Z) (bigdata : frame)
  : option frame :=
  match fuel with
  | O => None
  | S fuel' =>
      match get_page w commodity offset with
      | Raise _ => Some bigdata
      | Ok market_prices =>
          let market_prices := default empty_frame (head market_prices) in
          paginate fuel' w commodity (offset + 3000) (concat bigdata market_prices)
      end
  end.

(** The [for commodity in commodities] loop. *)
Fixpoint fetch (fuel : nat) (w : web) (items : list Z) (bigdata : frame)
  : option frame :=
  match items with
  | [] => Some bigdata
  | commodity :: items' =>
      match paginate fuel w commodity 0 bigdata with
      | Some bigdata' => fetch fuel w items' bigdata'
      | None => None
      end
  end.

(** ** De-duplication *)

Definition dedup_subset (p : pipeline) : list text :=
  match p with
  | Fertilizer =>
      [str "commodity"; str "classification"; str "market"; str "wholesale";
       str "retail"; str "supply_volume"; str "county"; str "date"]
  | Livestock =>
      [str "commodity"; str "classification"; str "grade"; str "sex";
       str "market"; str "wholesale"; str "retail"; str "supply_volume";
       str "county"; str "date"]
  end.

(** The values of a row under the labels of the subset. *)
Definition row_key (cols subset : list text) (r : list cell) : list cell :=
  map (fun c => lookup_cell cols c r) subset.

(** The mask of [duplicated(keep='first')]: a row is marked when an earlier
    row has its key; missing values compare equal. *)
Fixpoint duplicated_mask (seen keys : list (list cell)) : list bool :=
  match keys with
  | [] => []
  | k :: keys' => bool_decide (k ∈ seen) :: duplicated_mask (k :: seen) keys'
  end.

(** [data.duplicated(subset=...)] *)
Definition duplicated (subset : list text) (data : frame) : result (list bool) :=
  if decide (Forall (fun l => l ∈ columns data) subset) then
    Ok (duplicated_mask [] (map (row_key (columns data) subset) (rows data)))
  else Raise KeyError.

(** [data.drop_duplicates(subset=..., inplace=True)]: the rows that
    [duplicated] does not mark. *)
Definition drop_duplicates (subset : list text) (data : frame) : result frame :=
  mask ← duplicated subset data;
  Ok (Frame (columns data)
            (filter (fun rm => rm.2 = false) (zip (rows data) mask)).*1).

(** ** The destination store *)

(** [datetime.now()], as far as the scripts look at it. *)
Record datetime := DateTime { year : Z; month : Z; day : Z }.

(** A table of the store: the f-string
    [data-storage-485106.{dataset}.market_prices_{year}_{month}]. *)
Record table_id := TableId { dataset : string; table_year : Z; table_month : Z }.

Global Instance table_id_eq_dec : EqDecision table_id.
Proof. solve_decision. Defined.

Definition dataset_id (p : pipeline) : string :=
  match p with
  | Fertilizer => "fertilizer"
  | Livestock => "livestock"
  end.

Definition current_table (p : pipeline) (now : datetime) : table_id :=
  TableId (dataset_id p) (year now) (month now).

(** [now.replace(day=1) - timedelta(days=1)] falls in the previous month. *)
Definition prev_table (p : pipeline) (now : datetime) : table_id :=
  if month now =? 1 then TableId (dataset_id p) (year now - 1) 12
  else TableId (dataset_id p) (year now) (month now - 1).

Inductive field_type := STRING | FLOAT | DATE.

Global Instance field_type_eq_dec : EqDecision field_type.
Proof. solve_decision. Defined.

Definition schema (p : pipeline) : list (text * field_type) :=
  match p with
  | Fertilizer =>
      [(str "commodity", STRING); (str "classification", STRING);
       (str "market", STRING); (str "wholesale", FLOAT); (str "retail", FLOAT);
       (str "supply_volume", FLOAT); (str "county", STRING); (str "date", DATE)]
  | Livestock =>
      [(str "commodity", STRING); (str "classification", STRING);
       (str "grade", STRING); (str "sex", STRING);
       (str "market", STRING); (str "wholesale", FLOAT); (str "retail", FLOAT);
       (str "supply_volume", FLOAT); (str "county", STRING); (str "date", DATE)]
  end.

(** The [ORDER BY] clause of a [SELECT *]. *)
Inductive ordering :=
| Unordered
| OrderByDesc (column : text).

Global Instance ordering_eq_dec : EqDecision ordering.
Proof. solve_decision. Defined.

(** The calls the scripts make on the client and on a load job. *)
Inductive call :=
| QueryCount (t : table_id) (in_month in_year : Z)
| QuerySelect (t : table_id) (o : ordering)
| LoadTable (data : frame) (t : table_id)
| JobResult (job : nat)
| DeleteTable (t : table_id)
| CreateTable (t : table_id) (fields : list (text * field_type))
| JobReload (job : nat).

Global Instance call_eq_dec : EqDecision call.
Proof. solve_decision. Defined.

(** What a run did to the store: each call with the exception it raised,
    if any, oldest first. *)
Abbreviation history := (list (call * option exn)) (only parsing).

(** The client: every method answers from the history so far. *)
Record client := Client {
  query_count : history -> table_id -> Z -> Z -> result Z;
  query_select : history -> table_id -> ordering -> result frame;
  load_table_from_dataframe : history -> frame -> table_id -> result nat;
  job_result : history -> nat -> result unit;
  delete_table : history -> table_id -> result unit;
  create_table : history -> table_id -> list (text * field_type) -> result unit;
  job_reload : history -> nat -> result unit;
  job_done : history -> nat -> bool;
}.

(** ** Scripts: state (the history) and exceptions *)

Inductive flow (A : Type) :=
| Next (a : A)
| Raised (e : exn)
| Stalled.
Arguments Next {A} a.
Arguments Raised {A} e.
Arguments Stalled {A}.

Definition script (A : Type) := history -> flow A * history.

Global Instance script_ret : MRet script := fun _ a h => (Next a, h).
Global Instance script_bind : MBind script := fun _ _ k m h =>
  match m h with
  | (Next a, h') => k a h'
  | (Raised e, h') => (Raised e, h')
  | (Stalled, h') => (Stalled, h')
  end.

(** One call on the store, written to the history with its fate. *)
Definition issue {A} (c : call) (answer : history -> result A) : script A :=
  fun h =>
    match answer h with
    | Ok a => (Next a, h ++ [(c, None)])
    | Raise e => (Raised e, h ++ [(c, Some e)])
    end.

(** An exception of pandas inside a script. *)
Definition lift {A} (r : result A) : script A :=
  fun h =>
    match r with
    | Ok a => (Next a, h)
    | Raise e => (Raised e, h)
    end.

(** [try: body  except NotFound: handler] *)
Definition try_except_NotFound {A} (body handler : script A) : script A :=
  fun h =>
    match body h with
    | (Raised NotFound, h') => handler h'
    | other => other
    end.

(** [try: body  except Exception as e: print(...)] *)
Definition try_except_Exception (body : script unit) : script unit :=
  fun h =>
    match body h with
    | (Raised _, h') => (Next tt, h')
    | other => other
    end.

(** ** RolloverMerger, Appender and Reconciler *)

(** [client.query(sql).to_dataframe()] for a [SELECT *]. *)
Definition query_to_dataframe (bq : client) (t : table_id) (o : ordering)
  : script frame :=
  issue (QuerySelect t o) (fun h => query_select bq h t o).

(** [job = client.load_table_from_dataframe(bigdata, table_id,
    WRITE_APPEND)] followed by [job.result()]. *)
Definition load_and_wait (bq : client) (bigdata : frame) (t : table_id)
  : script unit :=
  job ← issue (LoadTable bigdata t) (fun h => load_table_from_dataframe bq h bigdata t);
  issue (JobResult job) (fun h => job_result bq h job).

(** The read of the previous month: line 127 of fertilizer.py orders it,
    line 112 of livestock.py does not. *)
Definition prev_ordering (p : pipeline) : ordering :=
  match p with
  | Fertilizer => OrderByDesc (str "date")
  | Livestock => Unordered
  end.

(** The read of the reconciliation pass: lines 156-160 of fertilizer.py,
    141-144 of livestock.py. *)
Definition reconcile_ordering (p : pipeline) : ordering :=
  match p with
  | Fertilizer => OrderByDesc (str "start_date")
  | Livestock => Unordered
  end.

(** The [try] ... [except Exception] block of the first of the month. *)
Definition first_of_month_load (p : pipeline) (now : datetime) (bq : client)
    (bigdata : frame) : script unit :=
  try_except_Exception
    (bigdata ← try_except_NotFound
       (prev_data ← query_to_dataframe bq (prev_table p now) (prev_ordering p);
        mret (concat prev_data bigdata))
       (mret bigdata);
     load_and_wait bq bigdata (current_table p now)).

(** Lines 107-117 of fertilizer.py. *)
Definition has_current_month_data (bq : client) (t : table_id) (now : datetime)
  : script bool :=
  try_except_NotFound
    (cnt ← issue (QueryCount t (month now) (year now))
                 (fun h => query_count bq h t (month now) (year now));
     mret (0 <? cnt))
    (mret false).

(** The [if now.day == 1: ... else: ...] of both scripts. *)
Definition append_phase (p : pipeline) (now : datetime) (bq : client)
    (bigdata : frame) : script unit :=
  if day now =? 1 then
    match p with
    | Fertilizer =>
        has ← has_current_month_data bq (current_table p now) now;
        if negb has then first_of_month_load p now bq bigdata else mret tt
    | Livestock => first_of_month_load p now bq bigdata
    end
  else load_and_wait bq bigdata (current_table p now).

(** [while job.state != 'DONE': time.sleep(2); job.reload()] *)
Fixpoint wait_done (fuel : nat) (bq : client) (job : nat) : script unit :=
  fun h =>
    if job_done bq h job then (Next tt, h)
    else match fuel with
         | O => (Stalled, h)
         | S fuel' =>
             (_ ← issue (JobReload job) (fun h => job_reload bq h job);
              wait_done fuel' bq job) h
         end.

(** From the [SELECT *] to the end of the scripts. *)
Definition reconcile (p : pipeline) (now : datetime) (bq : client) (fuel : nat)
  : script unit :=
  let t := current_table p now in
  data ← query_to_dataframe bq t (reconcile_ordering p);
  _ ← issue (DeleteTable t) (fun h => delete_table bq h t);
  _ ← lift (duplicated (dedup_subset p) data);
  data ← lift (drop_duplicates (dedup_subset p) data);
  _ ← try_except_Exception
        (issue (CreateTable t (schema p)) (fun h => create_table bq h t (schema p)));
  job ← issue (LoadTable data t) (fun h => load_table_from_dataframe bq h data t);
  wait_done fuel bq job.

(** ** A run *)

Inductive outcome :=
| Completed
| SysExit (status : Z)
| Traceback (e : exn)
| Unfinished.

(** The exit status of the interpreter. *)
Definition exit_status (o : outcome) : option Z :=
  match o with
  | Completed => Some 0
  | SysExit status => Some status
  | Traceback _ => Some 1
  | Unfinished => None
  end.

Section Run.
Context `{R : Runtime}.

(** What follows the fetch. *)
Definition process (p : pipeline) (now : datetime) (bq : client) (fuel : nat)
    (bigdata : frame) : outcome * history :=
  if empty bigdata then (SysExit 0, [])
  else match normalize p bigdata with
       | Raise e => (Traceback e, [])
       | Ok bigdata =>
           match (_ ← append_phase p now bq bigdata; reconcile p now bq fuel) [] with
           | (Next _, h) => (Completed, h)
           | (Raised e, h) => (Traceback e, h)
           | (Stalled, h) => (Unfinished, h)
           end
       end.

(** One run of a script: the outcome and what was done to the store. *)
Definition run (p : pipeline) (now : datetime) (w : web) (bq : client)
    (fuel : nat) : outcome * history :=
  match fetch fuel w (commodities p) empty_frame with
  | Some bigdata => process p now bq fuel bigdata
  | None => (Unfinished, [])
  end.
End Run.

(** ** The retrying session *)

(** Lines 18-29 and 64 configure urllib3's [Retry] and mount it on the
    session.  The numbers below are those of the scripts; the counting and
    the back-off schedule are urllib3's ([Retry.increment], [is_exhausted],
    [get_backoff_time], [is_retry], [sleep], and the loop of
    [HTTPConnectionPool.urlopen]). *)
Module Transport.

Record Retry := {
  total : Z;
  backoff_factor : Z;
  status_forcelist : list Z;
  allowed_methods : list string;
  (** the length of [Retry.history]: the failures so far *)
  failures : nat;
}.

(** [retries = Retry(total=5, backoff_factor=2, status_forcelist=[...],
    allowed_methods=["GET"])] *)
Definition retries : Retry := {|
  total := 5;
  backoff_factor := 2;
  status_forcelist := [429; 500; 502; 503; 504];
  allowed_methods := ["GET"%string];
  failures := 0;
|}.

(** [session.get(url, verify=False, timeout=60)] *)
Definition timeout : Z := 60.

Definition DEFAULT_BACKOFF_MAX : Z := 120.
Definition RETRY_AFTER_STATUS_CODES : list Z := [413; 429; 503].

(** One attempt: the connection fails, the read fails, or a response
    arrives with its status and its [Retry-After] header, in seconds. *)
Inductive attempt :=
| ConnectError
| ReadError
| Status (code : Z) (retry_after : option Z).

Inductive reply :=
| Returned (code : Z)
| MaxRetryError
| Reraised.

Definition is_method_retryable (r : Retry) (method : string) : bool :=
  bool_decide (method ∈ allowed_methods r).

(** [Retry.is_retry(method, status_code, has_retry_after)] *)
Definition is_retry (r : Retry) (method : string) (code : Z)
    (has_retry_after : bool) : bool :=
  is_method_retryable r method
  && (bool_decide (code ∈ status_forcelist r)
      || (negb (total r =? 0) && has_retry_after
          && bool_decide (code ∈ RETRY_AFTER_STATUS_CODES))).

(** [Retry.increment]: one retry less, one failure more. *)
Definition increment (r : Retry) : Retry := {|
  total := total r - 1;
  backoff_factor := backoff_factor r;
  status_forcelist := status_forcelist r;
  allowed_methods := allowed_methods r;
  failures := S (failures r);
|}.

(** [Retry.is_exhausted]: a counter went below zero. *)
Definition is_exhausted (r : Retry) : bool := total r <? 0.

(** [Retry.get_backoff_time] *)
Definition get_backoff_time (r : Retry) : Z :=
  if (failures r <=? 1)%nat then 0
  else Z.min DEFAULT_BACKOFF_MAX
             (backoff_factor r * 2 ^ (Z.of_nat (failures r) - 1)).

(** [Retry.sleep(response)]: the header when there is one, else the
    back-off; the seconds slept. *)
Definition sleep (r : Retry) (retry_after : option Z) : Z :=
  match retry_after with
  | Some s => if s =? 0 then get_backoff_time r else s
  | None => get_backoff_time r
  end.

(** [urlopen] with its retries: the reply, the attempts made and the
    seconds slept between them.  [server k] is the fate of attempt [k]. *)
Fixpoint urlopen (fuel : nat) (method : string) (server : nat -> attempt)
    (k : nat) (r : Retry) (slept : list Z) : option (reply * nat * list Z) :=
  match fuel with
  | O => None
  | S fuel' =>
      let again (retry_after : option Z) :=
        let r' := increment r in
        if is_exhausted r' then Some (MaxRetryError, S k, slept)
        else urlopen fuel' method server (S k) r' (slept ++ [sleep r' retry_after]) in
      match server k with
      | ConnectError => again None
      | ReadError =>
          if is_method_retryable r method then again None
          else Some (Reraised, S k, slept)
      | Status code retry_after =>
          if is_retry r method code (bool_decide (is_Some retry_after))
          then again retry_after
          else Some (Returned code, S k, slept)
      end
  end.

End Transport.

(** ** A concrete runtime and concrete runs *)

(** [str.lower] on ASCII text. *)
Definition ascii_lower (s : text) : text :=
  map (fun c => if is_ascii_upper c then c + 32 else c) s.

(** [YYYY-MM-DD] *)
Definition iso_date (s : text) : option (Z * Z * Z) :=
  match s with
  | [y1; y2; y3; y4; h1; m1; m2; h2; d1; d2] =>
      if (h1 =? 45) && (h2 =? 45)
         && forallb is_ascii_digit [y1; y2; y3; y4; m1; m2; d1; d2]
      then Some (digits_val [y1; y2; y3; y4], digits_val [m1; m2], digits_val [d1; d2])
      else None
  | _ => None
  end.

(** The runtime restricted to ASCII text and ISO dates. *)
Definition ascii_runtime : Runtime := {|
  py_lower := ascii_lower;
  uni_decimal := fun _ => false;
  parse_date := iso_date;
  date_of_number := fun _ => None;
|}.

(** The header of the tables of the site. *)
Definition kamis_columns : list text :=
  map str ["Commodity"; "Classification"; "Grade"; "Sex"; "Market";
           "Wholesale"; "Retail"; "Supply Volume"; "County"; "Date"]%string.

Definition dap_row : list cell :=
  [Text (str "Fertilizer"); Text (str "DAP"); Text (str "-"); Text (str "-");
   Text (str "Nairobi"); Text (str "3500 Kshs"); Text (str "3700 Kshs"); NaN;
   Text (str "Nairobi"); Text (str "2024-03-05")].

Definition can_row : list cell :=
  [Text (str "Fertilizer"); Text (str "CAN"); Text (str "-"); Text (str "-");
   Text (str "Nakuru"); Text (str "2900.50 Kshs"); Text (str "Kshs 3100"); NaN;
   Text (str "Nakuru"); Text (str "2024-03-06")].

(** One page with a row, its exact duplicate and another row. *)
Definition sample_page : frame := Frame kamis_columns [dap_row; dap_row; can_row].

(** A site with one page per commodity: the second request fails. *)
Definition one_page_web : web :=
  fun _ offset => if offset =? 0 then Html [sample_page] else RequestFailed.

(** A site whose answers carry no table. *)
Definition no_table_web : web := fun _ _ => Html [].

(** A page without the grade and sex columns. *)
Definition short_page : frame :=
  Frame (map str ["Commodity"; "Market"; "Wholesale"; "Retail"; "Date"]%string)
        [[Text (str "Fertilizer"); Text (str "Nairobi"); Text (str "3500 Kshs");
          Text (str "3700 Kshs"); Text (str "2024-03-05")]].

Definition short_page_web : web :=
  fun _ offset => if offset =? 0 then Html [short_page] else RequestFailed.

(** A store given by the content of its tables, on which the call number
    [fail_at] of a run fails; a query ordered by a column the table does
    not have is refused. *)
Definition select_from (tables : table_id -> option frame) (t : table_id)
    (o : ordering) : result frame :=
  match tables t with
  | None => Raise NotFound
  | Some f =>
      match o with
      | Unordered => Ok f
      | OrderByDesc c => if decide (c ∈ columns f) then Ok f else Raise BadRequest
      end
  end.

Definition sample_client (tables : table_id -> option frame) (cnt : Z)
    (fail_at : option nat) : client :=
  let guard {A} (h : history) (r : result A) : result A :=
    if decide (fail_at = Some (length h)) then Raise GoogleAPIError else r in
  {|
    query_count := fun h t _ _ =>
      guard h (match tables t with Some _ => Ok cnt | None => Raise NotFound end);
    query_select := fun h t o => guard h (select_from tables t o);
    load_table_from_dataframe := fun h _ _ => guard h (Ok (length h));
    job_result := fun h _ => guard h (Ok tt);
    delete_table := fun h _ => guard h (Ok tt);
    create_table := fun h _ _ => guard h (Ok tt);
    job_reload := fun h _ => guard h (Ok tt);
    job_done := fun h job => bool_decide (job + 1 < length h)%nat;
  |}.

Definition april_first : datetime := DateTime 2024 4 1.
Definition march_seventh : datetime := DateTime 2024 3 7.

(** A current-month table of the fertilizer store as it is read back: a
    row, another row, and the first row again. *)
Definition stored_columns : list text :=
  map str ["commodity"; "classification"; "market"; "wholesale"; "retail";
           "supply_volume"; "county"; "date"]%string.

Definition stored_dap : list cell :=
  [Text (str "Fertilizer"); Text (str "DAP"); Text (str "Nairobi");
   Num (Q2Qc 3500); Num (Q2Qc 3700); NaN; Text (str "Nairobi"); Date 2024 3 5].

Definition stored_can : list cell :=
  [Text (str "Fertilizer"); Text (str "CAN"); Text (str "Nakuru");
   Num (Q2Qc 2900.5); Num (Q2Qc 3100); NaN; Text (str "Nakuru"); Date 2024 3 6].

Definition read_back : frame :=
  Frame stored_columns [stored_dap; stored_can; stored_dap].

Definition deduplicated : frame :=
  Frame stored_columns [stored_dap; stored_can].

(** The stores of the sample runs: the fertilizer table of April 2024 or
    of March 2024 holds [read_back], the livestock table of April 2024
    holds one row, and no other table exists. *)
Definition april_tables (t : table_id) : option frame :=
  if decide (t = current_table Fertilizer april_first) then Some read_back else None.

Definition march_tables (t : table_id) : option frame :=
  if decide (t = current_table Fertilizer march_seventh) then Some read_back else None.

Definition livestock_columns : list text :=
  map str ["commodity"; "classification"; "grade"; "sex"; "market"; "wholesale";
           "retail"; "supply_volume"; "county"; "date"]%string.

Definition stored_goat : list cell :=
  [Text (str "Goat"); Text (str "Local"); Text (str "-"); Text (str "Male");
   Text (str "Garissa"); Num (Q2Qc 6500); Num (Q2Qc 7000); NaN;
   Text (str "Garissa"); Date 2024 4 1].

Definition livestock_tables (t : table_id) : option frame :=
  if decide (t = current_table Livestock april_first)
  then Some (Frame livestock_columns [stored_goat]) else None.

(** What the sample runs fetch from [one_page_web] and what the
    normalisation makes of it. *)
Definition fertilizer_raw : frame := concat empty_frame sample_page.

Definition livestock_raw : frame :=
  fold_left concat (replicate 5 sample_page) empty_frame.

Definition fertilizer_batch : frame :=
  match @normalize ascii_runtime Fertilizer fertilizer_raw with
  | Ok batch => batch
  | Raise _ => empty_frame
  end.

Definition livestock_batch : frame :=
  match @normalize ascii_runtime Livestock livestock_raw with
  | Ok batch => batch
  | Raise _ => empty_frame
  end.

(** A store that answers every call, one on which the first call of the
    run fails and one on which the second call fails. *)
Definition livestock_store : client := sample_client livestock_tables 0 None.
Definition livestock_store_down : client := sample_client livestock_tables 0 (Some 0%nat).
Definition livestock_store_flaky : client := sample_client livestock_tables 0 (Some 1%nat).

(** The fertilizer store on a first of April on which the table of April
    already holds three rows of April, and on a seventh of March. *)
Definition fertilizer_store_april : client := sample_client april_tables 3 None.
Definition fertilizer_store_march : client := sample_client march_tables 0 None.

(** ** Shapes of a history *)

(** The history ends with a load of [data] into [t] that succeeded and
    whose job was waited for without error. *)
Definition appended (data : frame) (t : table_id) (h : history) : Prop :=
  exists pre job, h = pre ++ [(LoadTable data t, None); (JobResult job, None)].

(** The history ends with a call that raised. *)
Definition ends_raising (c : call) (e : exn) (h : history) : Prop :=
  exists pre, h = pre ++ [(c, Some e)].

(** The calls of an append: the load and the wait for its job. *)
Definition is_append (t : table_id) (c : call) : Prop :=
  (exists data, c = LoadTable data t) \/ (exists job, c = JobResult job).

(** A script only ever adds to the history. *)
Definition extends {A} (m : script A) : Prop :=
  forall h, exists ext, (m h).2 = h ++ ext.

(** ** Well-formed frames *)

(** A frame as [pd.read_html] and the store give it: distinct column labels
    and one cell per column in every row. *)
Definition well_formed (f : frame) : Prop :=
  NoDup (columns f) /\ Forall (fun r => length r = length (columns f)) (rows f).

(** ** Typed cells *)

(** What a price column holds after the normalisation: nothing, or a
    number that is not negative. *)
Definition null_or_price (c : cell) : Prop :=
  c = NaN \/ exists q, c = Num q /\ (0 <= q)%Qc.

(** What the date column holds after the normalisation. *)
Definition null_or_date (c : cell) : Prop :=
  c = NaN \/ exists y m d, c = Date y m d.

(** The value of a row under a label, read along the header: the cell
    that stands under the first column so named. *)
Fixpoint find_cell (name : text) (cols : list text) (r : list cell) : cell :=
  match cols, r with
  | c :: cols', v :: r' => if decide (c = name) then v else find_cell name cols' r'
  | _, _ => NaN
  end.

(** ** Calls a run may make *)

(** A script adds to the history only entries that satisfy [P]. *)
Definition adds (P : call * option exn -> Prop) {A} (m : script A) : Prop :=
  forall h, exists ext, (m h).2 = h ++ ext /\ Forall P ext.

(** The calls that occur in the two scripts, with the tables and the
    arguments they are made with. *)
Definition allowed_call (p : pipeline) (now : datetime) (c : call) : Prop :=
  match c with
  | QueryCount t in_month in_year =>
      p = Fertilizer /\ day now = 1 /\ t = current_table p now
      /\ in_month = month now /\ in_year = year now
  | QuerySelect t o =>
      (t = current_table p now /\ o = reconcile_ordering p)
      \/ (day now = 1 /\ t = prev_table p now /\ o = prev_ordering p)
  | LoadTable _ t => t = current_table p now
  | JobResult _ => True
  | DeleteTable t => t = current_table p now
  | CreateTable t fields => t = current_table p now /\ fields = schema p
  | JobReload _ => True
  end.

Definition is_delete (c : call) : Prop :=
  match c with
  | DeleteTable _ => True
  | _ => False
  end.

(** ** More sample sites and stores *)

(** A site that always has one more page. *)
Definition endless_web : web := fun _ _ => Html [sample_page].

(** A page without a date column. *)
Definition dateless_page : frame :=
  Frame [str "Commodity"; str "Wholesale"] [[Text (str "Goat"); Text (str "6500")]].

Definition dateless_web : web :=
  fun _ offset => if offset =? 0 then Html [dateless_page] else RequestFailed.

(** A livestock store whose table of April lacks most of the key columns. *)
Definition narrow_tables (t : table_id) : option frame :=
  if decide (t = current_table Livestock april_first)
  then Some (Frame [str "commodity"; str "market"; str "date"]
                   [[Text (str "Goat"); Text (str "Garissa"); Date 2024 4 1]])
  else None.

Definition narrow_store : client := sample_client narrow_tables 0 None.

(** A store whose load jobs never come to an end. *)
Definition stalling_store : client := {|
  query_count := query_count livestock_store;
  query_select := query_select livestock_store;
  load_table_from_dataframe := load_table_from_dataframe livestock_store;
  job_result := job_result livestock_store;
  delete_table := delete_table livestock_store;
  create_table := create_table livestock_store;
  job_reload := fun _ _ => Ok tt;
  job_done := fun _ _ => false;
|}.

(** ** Attempts that are tried again *)


(** The fertilizer store of a first of April on which the first call
    fails. *)
Definition fertilizer_store_down : client := sample_client april_tables 3 (Some 0%nat).

(** A page with a date that is not written as [YYYY-MM-DD]. *)
Definition bad_date_page : frame :=
  Frame [str "Commodity"; str "Wholesale"; str "Retail"; str "Date"]
        [[Text (str "Goat"); Text (str "6500"); Text (str "7000");
          Text (str "2024-04-01")];
         [Text (str "Sheep"); Text (str "5000"); Text (str "5500");
          Text (str "01/04/2024")]].

Definition bad_date_web : web :=
  fun _ offset => if offset =? 0 then Html [bad_date_page] else RequestFailed.

(** ** What a frame keeps of another *)

(** The frame [f] keeps the rows of [a]: for every row of [a] it has a row
    with the same value under every label, nothing under the labels that
    [a] does not have. *)
Definition kept_in (a f : frame) : Prop :=
  forall r, r ∈ rows a ->
    exists r', r' ∈ rows f
               /\ forall c, lookup_cell (columns f) c r' = lookup_cell (columns a) c r.

(** The frame the loops build from [bigdata] when the site has the pages
    [pages_of] of each item: page joined after page, item after item. *)
Definition fetched (pages_of : Z -> list frame) (items : list Z) (bigdata : frame)
  : frame :=
  fold_left concat (flat_map pages_of items) bigdata.

(** A site on which commodity 140 has two pages and then a body without
    any table, and every other commodity one page and then a request that
    fails. *)
Definition mixed_web : web :=
  fun commodity offset =>
    if commodity =? 140 then
      if offset <? 6000 then Html [sample_page] else Html []
    else if offset =? 0 then Html [sample_page] else RequestFailed.

Definition mixed_pages (commodity : Z) : list frame :=
  if commodity =? 140 then [sample_page; sample_page] else [sample_page].

(** ** The append phase, as the history of a run shows it *)

(** The calls [h0] were the first of the history [h], and the read of the
    reconciliation pass is the call that came next. *)
Definition reconciles_after (p : pipeline) (now : datetime) (h0 h : history) : Prop :=
  exists st post,
    h = h0 ++ (QuerySelect (current_table p now) (reconcile_ordering p), st) :: post.

(** On the first of the month the block of the load is entered after the
    calls [h1]: at once in livestock.py; in fertilizer.py after a count
    that found no row of the current month, or no table to count in. *)
Definition unguarded (p : pipeline) (now : datetime) (bq : client) (h1 : history)
  : Prop :=
  match p with
  | Livestock => h1 = []
  | Fertilizer =>
      (exists cnt,
         query_count bq [] (current_table p now) (month now) (year now) = Ok cnt
         /\ cnt <= 0
         /\ h1 = [(QueryCount (current_table p now) (month now) (year now), None)])
      \/ (query_count bq [] (current_table p now) (month now) (year now)
          = Raise NotFound
          /\ h1 = [(QueryCount (current_table p now) (month now) (year now),
                    Some NotFound)])
  end.

(** After the calls [h2] the history [h] goes on with the load of [data]
    into the current table and, when the store accepted it, with the wait
    for its job; whether they succeed or raise, the read of the
    reconciliation pass is the call after them. *)
Definition append_caught (p : pipeline) (now : datetime) (bq : client)
    (data : frame) (h2 h : history) : Prop :=
  match load_table_from_dataframe bq h2 data (current_table p now) with
  | Raise e =>
      reconciles_after p now
        (h2 ++ [(LoadTable data (current_table p now), Some e)]) h
  | Ok job =>
      match job_result bq (h2 ++ [(LoadTable data (current_table p now), None)]) job with
      | Raise e =>
          reconciles_after p now
            (h2 ++ [(LoadTable data (current_table p now), None);
                    (JobResult job, Some e)]) h
      | Ok _ =>
          reconciles_after p now
            (h2 ++ [(LoadTable data (current_table p now), None);
                    (JobResult job, None)]) h
      end
  end.

(** The fertilizer store of a first of April on which the count finds one
    row of April. *)
Definition fertilizer_store_april_one : client := sample_client april_tables 1 None.

(** * Properties *)

(** ** Column names *)

Ltac bool_to_Z :=
  unfold is_word, is_space, is_ascii_digit, is_ascii_lower, is_ascii_upper,
    in_range in *;
  repeat match goal with
  | H : _ || _ = true |- _ => apply orb_true_iff in H
  | H : _ && _ = true |- _ => apply andb_true_iff in H
  | H : _ || _ = false |- _ => apply orb_false_iff in H
  | H : _ && _ = false |- _ => apply andb_false_iff in H
  | H : (_ <=? _) = true |- _ => apply Z.leb_le in H
  | H : (_ <=? _) = false |- _ => apply Z.leb_gt in H
  | H : (_ <? _) = true |- _ => apply Z.ltb_lt in H
  | H : (_ <? _) = false |- _ => apply Z.ltb_ge in H
  | H : (_ =? _) = true |- _ => apply Z.eqb_eq in H
  | H : (_ =? _) = false |- _ => apply Z.eqb_neq in H
  | H : _ /\ _ |- _ => destruct H
  | H : _ \/ _ |- _ => destruct H
  end.

Lemma canonical_not_space c : canonical c -> is_space c = false.
Proof.
  intros [Hw Hu]. destruct (is_space c) eqn:E; [|reflexivity].
  bool_to_Z; lia.
Qed.

Lemma canonical_not_blank c : canonical c -> (c =? 32) = false.
Proof. intros [Hw Hu]. apply Z.eqb_neq. bool_to_Z; lia. Qed.

Lemma lstrip_canonical s : Forall canonical s -> lstrip s = s.
Proof.
  destruct 1 as [|c s Hc _]; [reflexivity|].
  simpl. now rewrite (canonical_not_space c Hc).
Qed.

Lemma strip_canonical s : Forall canonical s -> strip s = s.
Proof.
  intros Hs. unfold strip. rewrite (lstrip_canonical s Hs).
  rewrite lstrip_canonical by now apply Forall_rev.
  apply rev_involutive.
Qed.

Lemma replace_space_canonical s : Forall canonical s -> replace_space s = s.
Proof.
  induction 1 as [|c s Hc _ IH]; [reflexivity|].
  unfold replace_space in *. simpl. rewrite IH.
  now rewrite (canonical_not_blank c Hc).
Qed.

Lemma strip_nonword_canonical s : Forall canonical s -> strip_nonword s = s.
Proof.
  induction 1 as [|c s [Hw Hu] _ IH]; [reflexivity|].
  unfold strip_nonword in *. rewrite filter_cons_True by exact Hw.
  now rewrite IH.
Qed.

Section CanonicalNames.
Context {R : Runtime} {L : RuntimeLaws R}.

Lemma lower_canonical s : Forall canonical s -> py_lower s = s.
Proof.
  intros Hs. apply lower_fixed. apply (Forall_impl _ _ _ Hs).
  intros c [Hw Hu]. split; [exact Hu|]. bool_to_Z; lia.
Qed.

(** Every character of a cleaned name is canonical. *)
Lemma clean_name_canonical s : Forall canonical (clean_name s).
Proof.
  unfold clean_name, strip_nonword. apply Forall_forall. intros c Hc.
  apply list_elem_of_filter in Hc as [Hw Hc]. split; [exact Hw|].
  unfold replace_space in Hc. apply list_elem_of_In, in_map_iff in Hc.
  destruct Hc as (d & Hd & Hin). apply list_elem_of_In in Hin.
  apply lower_no_upper in Hin.
  destruct (d =? 32); subst c; [reflexivity | exact Hin].
Qed.

Lemma clean_name_fixed s : Forall canonical s -> clean_name s = s.
Proof.
  intros Hs. unfold clean_name.
  now rewrite strip_canonical, lower_canonical, replace_space_canonical,
    strip_nonword_canonical.
Qed.

(** C10. The canonicalization of the column names (strip, lower-case,
    spaces to underscores, removal of every character outside
    [0-9a-zA-Z_]) is idempotent: on a name that is already cleaned it
    returns the name unchanged. *)
Theorem clean_name_idempotent (s : text) :
  clean_name (clean_name s) = clean_name s.
Proof. apply clean_name_fixed, clean_name_canonical. Qed.
End CanonicalNames.

Lemma ascii_runtime_laws : RuntimeLaws ascii_runtime.
Proof.
  split; simpl; unfold ascii_lower.
  - intros s c Hc. apply list_elem_of_In, in_map_iff in Hc.
    destruct Hc as (d & Hd & _). subst c.
    destruct (is_ascii_upper d) eqn:E; [|exact E].
    unfold is_ascii_upper, in_range in *.
    apply andb_true_iff in E as [E1 E2]. apply Z.leb_le in E1, E2.
    apply andb_false_iff. right. apply Z.leb_gt. lia.
  - induction 1 as [|c s [Hc _] _ IH]; [reflexivity|].
    simpl. now rewrite Hc, IH.
Qed.

Lemma clean_name_idempotent_witness :
  @clean_name ascii_runtime (str "  Supply Volume (Kg) ") = str "supply_volume_kg"
  /\ @clean_name ascii_runtime (@clean_name ascii_runtime (str "  Supply Volume (Kg) "))
     = @clean_name ascii_runtime (str "  Supply Volume (Kg) ").
Proof.
  split; [reflexivity|].
  exact (@clean_name_idempotent ascii_runtime ascii_runtime_laws
           (str "  Supply Volume (Kg) ")).
Defined.

(** ** Price extraction *)

Section ExtractionFacts.
Context {R : Runtime}.

Lemma span_digits_app s :
  s = (span_digits s).1 ++ (span_digits s).2.
Proof.
  induction s as [|c s IH]; [reflexivity|]. simpl.
  destruct (is_digit c); [|reflexivity].
  destruct (span_digits s) as [ds r]. simpl in *. now f_equal.
Qed.

(** A match at the head of a text is a prefix of it that starts with a
    digit. *)
Lemma match_here_prefix s m :
  match_here s = Some m ->
  exists post, s = m ++ post /\ exists c m', m = c :: m' /\ is_digit c = true.
Proof.
  unfold match_here. intros Hm.
  pose proof (span_digits_app s) as Hs.
  assert (Hhead : forall c ds, (span_digits s).1 = c :: ds -> is_digit c = true).
  { destruct s as [|c0 s]; simpl; [discriminate|].
    destruct (is_digit c0) eqn:E; [|discriminate].
    destruct (span_digits s). simpl. now intros c ds [= <- _]. }
  destruct (span_digits s) as [[|d ds] r]; [discriminate|]. simpl in *.
  specialize (Hhead d ds eq_refl).
  destruct r as [|c r].
  - injection Hm as <-. exists []. split; [exact Hs|]. now exists d, ds.
  - destruct (c =? 46) eqn:E.
    + apply Z.eqb_eq in E. subst c. injection Hm as <-.
      exists (span_digits r).2. split.
      * rewrite Hs. simpl. f_equal. rewrite <- app_assoc. simpl.
        do 2 f_equal. apply span_digits_app.
      * now exists d, (ds ++ 46 :: (span_digits r).1).
    + injection Hm as <-. exists (c :: r). split; [exact Hs|]. now exists d, ds.
Qed.

Lemma match_here_none s c :
  match_here (c :: s) = None -> is_digit c = false.
Proof.
  unfold match_here. simpl. destruct (is_digit c); [|reflexivity].
  destruct (span_digits s) as [ds [|c' r]]; [discriminate|].
  now destruct (c' =? 46).
Qed.

(** What [re.search] finds is the match at the first digit of the text. *)
Lemma search_leftmost s m :
  search s = Some m ->
  exists pre post,
    s = pre ++ m ++ post
    /\ Forall (fun c => is_digit c = false) pre
    /\ match_here (m ++ post) = Some m.
Proof.
  induction s as [|c s IH]; simpl.
  - unfold match_here. simpl. discriminate.
  - destruct (match_here (c :: s)) as [m'|] eqn:E.
    + intros [= <-]. destruct (match_here_prefix _ _ E) as (post & Hs & _).
      exists [], post. simpl. rewrite <- Hs. auto.
    + intros Hm. destruct (IH Hm) as (pre & post & -> & Hpre & Hmatch).
      exists (c :: pre), post. split; [reflexivity|]. split; [|exact Hmatch].
      constructor; [|exact Hpre]. exact (match_here_none _ _ E).
Qed.
End ExtractionFacts.

Lemma digits_val_acc ds acc :
  forallb is_ascii_digit ds = true -> 0 <= acc ->
  0 <= fold_left (fun a c => 10 * a + (c - 48)) ds acc.
Proof.
  revert acc. induction ds as [|c ds IH]; simpl; intros acc Hds Hacc; [exact Hacc|].
  apply andb_true_iff in Hds as [Hc Hds]. apply IH; [exact Hds|].
  bool_to_Z; lia.
Qed.

(** The number read in a decimal text is not negative. *)
Lemma parse_decimal_nonneg s q : parse_decimal s = Some q -> (0 <= q)%Qc.
Proof.
  unfold parse_decimal.
  match goal with |- context [let '(ip, fp) := ?sp in _] => destruct sp as [ip fp] end.
  destruct (_ && _) eqn:E; [|discriminate]. intros [= <-].
  apply andb_true_iff in E as [E Hfr]. apply andb_true_iff in E as [_ Hip].
  assert (Hn : 0 <= digits_val (ip ++ default [] fp)).
  { apply digits_val_acc; [|lia]. rewrite forallb_app. now rewrite Hip, Hfr. }
  match goal with |- (_ <= Q2Qc ?y)%Qc => set (x := y) end.
  assert (Hx : (0 <= Qred x)%Q).
  { rewrite (Qred_correct x). unfold Qle, x. simpl. lia. }
  exact Hx.
Qed.

(** C5, as the code has it.  The value extracted from a price cell is
    either null or a non-negative number whose decimal text is the leftmost
    match of the pattern in the cell: a contiguous piece of the cell that
    starts at the first digit of the cell and not necessarily at its first
    character. *)
Theorem extracted_price_is_leftmost_match {R : Runtime} (s : text) :
  to_numeric (extract (Text s)) = NaN
  \/ exists pre m post q,
       s = pre ++ m ++ post
       /\ Forall (fun c => is_digit c = false) pre
       /\ match_here (m ++ post) = Some m
       /\ parse_decimal m = Some q
       /\ to_numeric (extract (Text s)) = Num q
       /\ (0 <= q)%Qc.
Proof.
  simpl. destruct (search s) as [m|] eqn:Hs; [|now left]. simpl.
  destruct (parse_decimal m) as [q|] eqn:Hq; [|now left]. right.
  destruct (search_leftmost s m Hs) as (pre & post & Heq & Hpre & Hm).
  exists pre, m, post, q. repeat split; try assumption.
  exact (parse_decimal_nonneg m q Hq).
Qed.

(** C5, as stated, fails: in the cell [Kshs 3100] the value 3100 is
    extracted, and its text is not a prefix of the cell. *)
Lemma extracted_price_not_prefix :
  @extract ascii_runtime (Text (str "Kshs 3100")) = Text (str "3100")
  /\ to_numeric (Text (str "3100")) = Num (Q2Qc 3100)
  /\ ~ str "3100" `prefix_of` str "Kshs 3100".
Proof.
  split; [reflexivity|]. split; [reflexivity|].
  intros [post Hpost]. discriminate Hpost.
Qed.

(** ** De-duplication *)

Section Dedup.
Variable key : list cell -> list cell.

(** The rows [drop_duplicates] keeps, for a mask computed from the keys
    already [seen]. *)
Local Abbreviation kept seen rs :=
  (filter (fun rm : list cell * bool => rm.2 = false)
          (zip rs (duplicated_mask seen (map key rs)))).*1.

Lemma kept_cons_seen seen r rs :
  key r ∈ seen -> kept seen (r :: rs) = kept (key r :: seen) rs.
Proof.
  intros Hin. simpl. rewrite bool_decide_eq_true_2 by exact Hin.
  now rewrite filter_cons_False by discriminate.
Qed.

Lemma kept_cons_fresh seen r rs :
  key r ∉ seen -> kept seen (r :: rs) = r :: kept (key r :: seen) rs.
Proof.
  intros Hin. simpl. rewrite bool_decide_eq_false_2 by exact Hin.
  now rewrite filter_cons_True by reflexivity.
Qed.

Lemma kept_sublist seen rs : sublist (kept seen rs) rs.
Proof.
  revert seen. induction rs as [|r rs IH]; intros seen; [constructor|].
  destruct (decide (key r ∈ seen)) as [Hin|Hin].
  - rewrite kept_cons_seen by exact Hin. apply sublist_cons, IH.
  - rewrite kept_cons_fresh by exact Hin. apply sublist_skip, IH.
Qed.

Lemma kept_unseen seen rs r : r ∈ kept seen rs -> key r ∉ seen.
Proof.
  revert seen. induction rs as [|r0 rs IH]; intros seen Hr.
  - simpl in Hr. inversion Hr.
  - destruct (decide (key r0 ∈ seen)) as [Hin|Hin].
    + rewrite kept_cons_seen in Hr by exact Hin.
      apply IH in Hr. intros Hs. apply Hr. now right.
    + rewrite kept_cons_fresh in Hr by exact Hin.
      apply elem_of_cons in Hr as [->|Hr]; [exact Hin|].
      apply IH in Hr. intros Hs. apply Hr. now right.
Qed.

Lemma kept_NoDup seen rs : NoDup (map key (kept seen rs)).
Proof.
  revert seen. induction rs as [|r rs IH]; intros seen; [constructor|].
  destruct (decide (key r ∈ seen)) as [Hin|Hin].
  - rewrite kept_cons_seen by exact Hin. apply IH.
  - rewrite kept_cons_fresh by exact Hin. simpl. constructor; [|apply IH].
    intros Hk. apply list_elem_of_In, in_map_iff in Hk.
    destruct Hk as (r' & Hkey & Hr'). apply list_elem_of_In, kept_unseen in Hr'.
    apply Hr'. rewrite Hkey. now left.
Qed.

Lemma kept_complete seen rs r :
  r ∈ rs -> key r ∈ seen \/ key r ∈ map key (kept seen rs).
Proof.
  revert seen. induction rs as [|r0 rs IH]; intros seen Hr; [inversion Hr|].
  destruct (decide (key r0 ∈ seen)) as [Hin|Hin].
  - rewrite kept_cons_seen by exact Hin.
    apply elem_of_cons in Hr as [->|Hr]; [now left|].
    destruct (IH (key r0 :: seen) Hr) as [Hs|Hk]; [|now right].
    apply elem_of_cons in Hs as [->|Hs]; now left.
  - rewrite kept_cons_fresh by exact Hin. simpl.
    apply elem_of_cons in Hr as [->|Hr]; [right; now left|].
    destruct (IH (key r0 :: seen) Hr) as [Hs|Hk].
    + apply elem_of_cons in Hs as [->|Hs]; [right; now left | now left].
    + right. now right.
Qed.

Lemma kept_first seen rs k :
  k ∉ seen ->
  find (fun r => bool_decide (key r = k)) (kept seen rs)
  = find (fun r => bool_decide (key r = k)) rs.
Proof.
  revert seen. induction rs as [|r rs IH]; intros seen Hk; [reflexivity|].
  destruct (decide (key r ∈ seen)) as [Hin|Hin].
  - rewrite kept_cons_seen by exact Hin. simpl.
    rewrite bool_decide_eq_false_2 by (intros Heq; rewrite Heq in Hin; contradiction).
    apply IH. intros Hs. apply elem_of_cons in Hs as [->|Hs]; contradiction.
  - rewrite kept_cons_fresh by exact Hin. simpl.
    destruct (decide (key r = k)) as [Heq|Hne].
    + now rewrite bool_decide_eq_true_2 by exact Heq.
    + rewrite bool_decide_eq_false_2 by exact Hne.
      apply IH. intros Hs. apply elem_of_cons in Hs as [Hs|Hs]; [congruence|contradiction].
Qed.
End Dedup.

(** [drop_duplicates] answers whenever the frame has the columns of the
    key. *)
Lemma drop_duplicates_defined subset data :
  Forall (fun l => l ∈ columns data) subset ->
  exists data', drop_duplicates subset data = Ok data'.
Proof.
  intros Hcols. unfold drop_duplicates, duplicated.
  rewrite decide_True by exact Hcols. simpl. eauto.
Qed.

(** C1. The rows the reconciliation pass keeps: the columns are those read
    back, each kept row is a row read back and they stand in read order,
    no two kept rows have the same key, every key read back is kept, and
    the row kept for a key is the first row read back with that key. *)
Theorem drop_duplicates_first_per_key (p : pipeline) (data data' : frame) :
  drop_duplicates (dedup_subset p) data = Ok data' ->
  let key := row_key (columns data) (dedup_subset p) in
  columns data' = columns data
  /\ sublist (rows data') (rows data)
  /\ NoDup (map key (rows data'))
  /\ (forall r, r ∈ rows data -> key r ∈ map key (rows data'))
  /\ (forall k, find (fun r => bool_decide (key r = k)) (rows data')
                = find (fun r => bool_decide (key r = k)) (rows data)).
Proof.
  unfold drop_duplicates, duplicated.
  destruct (decide _) as [_|]; [|discriminate]. simpl. intros [= <-]. simpl.
  split; [reflexivity|]. split; [apply kept_sublist|].
  split; [apply kept_NoDup|]. split.
  - intros r Hr. destruct (kept_complete (row_key (columns data) (dedup_subset p)) [] _ _ Hr)
      as [Hs|Hk]; [inversion Hs|exact Hk].
  - intros k. apply kept_first. intros Hs. inversion Hs.
Qed.

Lemma drop_duplicates_first_per_key_witness :
  drop_duplicates (dedup_subset Fertilizer) read_back = Ok deduplicated
  /\ let key := row_key (columns read_back) (dedup_subset Fertilizer) in
     columns deduplicated = columns read_back
     /\ sublist (rows deduplicated) (rows read_back)
     /\ NoDup (map key (rows deduplicated))
     /\ (forall r, r ∈ rows read_back -> key r ∈ map key (rows deduplicated))
     /\ (forall k, find (fun r => bool_decide (key r = k)) (rows deduplicated)
                   = find (fun r => bool_decide (key r = k)) (rows read_back)).
Proof.
  assert (H : drop_duplicates (dedup_subset Fertilizer) read_back = Ok deduplicated)
    by (vm_compute; reflexivity).
  split; [exact H|].
  exact (drop_duplicates_first_per_key Fertilizer read_back deduplicated H).
Defined.

(** ** PagedFetcher *)

Lemma concat_rows_length a b :
  length (rows (concat a b)) = (length (rows a) + length (rows b))%nat.
Proof. unfold concat, reindex. simpl. now rewrite length_app, !length_map. Qed.

(** A request that raises and a body without a table both raise inside
    the [try]. *)
Lemma get_page_raises w commodity offset :
  w commodity offset = RequestFailed \/ w commodity offset = Html [] ->
  exists e, get_page w commodity offset = Raise e.
Proof. unfold get_page. intros [-> | ->]; simpl; eauto. Qed.

Lemma paginate_pages (pages : list frame) :
  forall fuel w commodity offset bigdata,
    (forall i page, pages !! i = Some page ->
       exists rest, w commodity (offset + 3000 * Z.of_nat i) = Html (page :: rest)) ->
    (exists e, get_page w commodity (offset + 3000 * Z.of_nat (length pages)) = Raise e) ->
    (length pages < fuel)%nat ->
    paginate fuel w commodity offset bigdata = Some (fold_left concat pages bigdata).
Proof.
  induction pages as [|page pages IH]; intros fuel w commodity offset bigdata Hok Hfail Hfuel.
  - destruct fuel as [|fuel]; [simpl in Hfuel; lia|]. simpl in *.
    destruct Hfail as [e He]. replace (offset + 3000 * Z.of_nat 0) with offset in He by lia.
    now rewrite He.
  - destruct fuel as [|fuel]; [simpl in Hfuel; lia|]. simpl.
    destruct (Hok 0%nat page eq_refl) as [rest Hpage].
    replace (offset + 3000 * Z.of_nat 0) with offset in Hpage by lia.
    unfold get_page at 1. rewrite Hpage. simpl.
    apply IH.
    + intros i page' Hi. destruct (Hok (S i) page' Hi) as [rest' Hrest].
      exists rest'. rewrite <- Hrest. f_equal. lia.
    + destruct Hfail as [e He]. exists e. rewrite <- He. f_equal. simpl length. lia.
    + simpl in Hfuel. lia.
Qed.

Lemma fold_concat_rows_length pages :
  forall bigdata,
    length (rows (fold_left concat pages bigdata))
    = (length (rows bigdata) + sum_list (map (fun f => length (rows f)) pages))%nat.
Proof.
  induction pages as [|page pages IH]; intros bigdata; simpl; [lia|].
  rewrite IH, concat_rows_length. lia.
Qed.

(** *** Labels and re-indexed rows *)

Lemma positions_not_in name cols k : name ∉ cols -> positions name cols k = [].
Proof.
  revert k. induction cols as [|c cols IH]; intros k Hn; [reflexivity|].
  simpl. apply not_elem_of_cons in Hn as [Hne Hn].
  rewrite decide_False by congruence. now apply IH.
Qed.

Lemma positions_NoDup cols :
  NoDup cols ->
  forall i k name, cols !! i = Some name -> positions name cols k = [(k + i)%nat].
Proof.
  induction 1 as [|c cols Hc Hnd IH]; intros i k name Hi; [discriminate|].
  destruct i as [|i]; simpl in *.
  - injection Hi as ->. rewrite decide_True by reflexivity.
    rewrite positions_not_in by exact Hc. f_equal. lia.
  - rewrite decide_False.
    + rewrite (IH i (S k) name Hi). f_equal. lia.
    + intros ->. apply Hc. eapply list_elem_of_lookup_2. exact Hi.
Qed.

Lemma reindex_own_columns cols r :
  NoDup cols -> length r = length cols ->
  map (fun c => lookup_cell cols c r) cols = r.
Proof.
  intros Hnd Hlen. apply list_eq. intros i.
  change (map (fun c => lookup_cell cols c r) cols)
    with ((fun c => lookup_cell cols c r) <$> cols).
  rewrite list_lookup_fmap.
  destruct (cols !! i) as [name|] eqn:Hi; simpl.
  - unfold lookup_cell. rewrite (positions_NoDup cols Hnd i 0 name Hi). simpl.
    unfold cell_at. apply lookup_lt_Some in Hi. rewrite <- Hlen in Hi.
    apply lookup_lt_is_Some_2 in Hi as [v Hv]. now rewrite Hv.
  - symmetry. apply lookup_ge_None. apply lookup_ge_None in Hi. lia.
Qed.

Lemma reindex_well_formed f : well_formed f -> reindex (columns f) f = rows f.
Proof.
  intros [Hnd Hrows]. unfold reindex.
  induction Hrows as [|r rs Hr _ IH]; [reflexivity|].
  simpl. now rewrite (reindex_own_columns _ r Hnd Hr), IH.
Qed.

Lemma filter_none_fresh (cols : list (list Z)) :
  filter (fun c => c ∉ cols) cols = [].
Proof.
  assert (H : forall l, Forall (fun c => c ∈ cols) l -> filter (fun c => c ∉ cols) l = []).
  { induction 1 as [|c l Hc _ IH]; [reflexivity|].
    rewrite filter_cons_False by (intros Hn; now apply Hn). exact IH. }
  apply H. apply Forall_forall. auto.
Qed.

Lemma filter_all_fresh (cols : list (list Z)) :
  filter (fun c => c ∉ @nil (list Z)) cols = cols.
Proof.
  induction cols as [|c cols IH]; [reflexivity|].
  rewrite filter_cons_True by (intros H; inversion H). now rewrite IH.
Qed.

(** *** [pd.concat] and the rows it is given *)

Lemma concat_empty_frame_l b : well_formed b -> concat empty_frame b = b.
Proof.
  intros Hb. unfold concat. change (columns empty_frame) with (@nil (list Z)).
  rewrite app_nil_l, filter_all_fresh.
  change (reindex (columns b) empty_frame) with (@nil (list cell)).
  cbn [app]. rewrite (reindex_well_formed b Hb). now destruct b.
Qed.

Lemma concat_same_header a b :
  well_formed a -> well_formed b -> columns a = columns b ->
  concat a b = Frame (columns a) (rows a ++ rows b).
Proof.
  intros Ha Hb Hcols. unfold concat. rewrite <- Hcols, filter_none_fresh, app_nil_r.
  rewrite (reindex_well_formed a Ha). rewrite Hcols at 2.
  now rewrite (reindex_well_formed b Hb).
Qed.

Lemma fold_concat_same_header cols pages :
  Forall (fun page => well_formed page /\ columns page = cols) pages ->
  forall acc,
    acc = empty_frame \/ (well_formed acc /\ columns acc = cols) ->
    rows (fold_left concat pages acc) = rows acc ++ flat_map rows pages
    /\ (fold_left concat pages acc = empty_frame
        \/ (well_formed (fold_left concat pages acc)
            /\ columns (fold_left concat pages acc) = cols)).
Proof.
  induction 1 as [|page pages [Hp Hc] _ IH]; intros acc Hacc.
  - simpl. rewrite app_nil_r. split; [reflexivity | exact Hacc].
  - cbn [fold_left flat_map]. destruct Hacc as [-> | [Ha Hca]].
    + rewrite (concat_empty_frame_l page Hp).
      destruct (IH page) as [Hr Hs]; [right; now split|]. now split.
    + rewrite (concat_same_header acc page Ha Hp) by congruence.
      destruct (IH (Frame (columns acc) (rows acc ++ rows page))) as [Hr Hs].
      { right. split; [|exact Hca]. destruct Ha as [Hnd Hrows], Hp as [_ Hprows].
        split; [exact Hnd|]. simpl. apply Forall_app. split; [exact Hrows|].
        rewrite Hca, <- Hc. exact Hprows. }
      split; [|exact Hs]. rewrite Hr. simpl. now rewrite app_assoc.
Qed.

Lemma positions_first name cols :
  name ∈ cols ->
  forall k, exists i rest,
    positions name cols k = (k + i)%nat :: rest /\ cols !! i = Some name.
Proof.
  induction cols as [|c cols IH]; intros Hin k; [inversion Hin|].
  simpl. destruct (decide (c = name)) as [->|Hne].
  - exists 0%nat, (positions name cols (S k)). split; [f_equal; lia | reflexivity].
  - apply elem_of_cons in Hin as [->|Hin]; [contradiction|].
    destruct (IH Hin (S k)) as (i & rest & Hp & Hi).
    exists (S i), rest. split; [rewrite Hp; f_equal; lia | exact Hi].
Qed.

Lemma lookup_cell_absent cols name r : name ∉ cols -> lookup_cell cols name r = NaN.
Proof. intros Hn. unfold lookup_cell. now rewrite positions_not_in. Qed.

(** A row that was re-indexed to the labels [cols'] holds, under each of
    them, what the row held under it. *)
Lemma lookup_cell_reindexed cols' cols r name :
  name ∈ cols' ->
  lookup_cell cols' name (map (fun c => lookup_cell cols c r) cols')
  = lookup_cell cols name r.
Proof.
  intros Hin. destruct (positions_first name cols' Hin 0) as (i & rest & Hp & Hi).
  unfold lookup_cell at 1. rewrite Hp. simpl. unfold cell_at.
  change (map (fun c => lookup_cell cols c r) cols')
    with ((fun c => lookup_cell cols c r) <$> cols').
  now rewrite list_lookup_fmap, Hi.
Qed.

Lemma kept_in_reindexed (a : frame) (cols' : list text) (rs : list (list cell)) :
  (forall c, c ∈ columns a -> c ∈ cols') ->
  (forall r, r ∈ rows a -> map (fun c => lookup_cell (columns a) c r) cols' ∈ rs) ->
  kept_in a (Frame cols' rs).
Proof.
  intros Hsub Hrs r Hr. exists (map (fun c => lookup_cell (columns a) c r) cols').
  split; [now apply Hrs|]. intros c. simpl.
  destruct (decide (c ∈ cols')) as [Hc|Hc].
  - now apply lookup_cell_reindexed.
  - rewrite (lookup_cell_absent cols' c _ Hc).
    symmetry. apply lookup_cell_absent. intros Hin. apply Hc. now apply Hsub.
Qed.

Lemma kept_in_concat_l a b : kept_in a (concat a b).
Proof.
  unfold concat. apply kept_in_reindexed.
  - intros c Hc. apply elem_of_app. now left.
  - intros r Hr. apply elem_of_app. left. unfold reindex.
    apply list_elem_of_In, in_map_iff. exists r. split; [reflexivity|].
    now apply list_elem_of_In.
Qed.

Lemma kept_in_concat_r a b : kept_in b (concat a b).
Proof.
  unfold concat. apply kept_in_reindexed.
  - intros c Hc. apply elem_of_app.
    destruct (decide (c ∈ columns a)) as [Ha|Ha]; [now left | right].
    apply list_elem_of_filter. now split.
  - intros r Hr. apply elem_of_app. right. unfold reindex.
    apply list_elem_of_In, in_map_iff. exists r. split; [reflexivity|].
    now apply list_elem_of_In.
Qed.

Lemma kept_in_refl_eq a : kept_in a a.
Proof. intros r Hr. exists r. now split. Qed.

Lemma kept_in_trans a b c : kept_in a b -> kept_in b c -> kept_in a c.
Proof.
  intros Hab Hbc r Hr. destruct (Hab r Hr) as (r1 & Hr1 & H1).
  destruct (Hbc r1 Hr1) as (r2 & Hr2 & H2). exists r2. split; [exact Hr2|].
  intros name. now rewrite H2, H1.
Qed.

Lemma kept_in_fold pages :
  forall acc,
    kept_in acc (fold_left concat pages acc)
    /\ Forall (fun page => kept_in page (fold_left concat pages acc)) pages.
Proof.
  induction pages as [|page pages IH]; intros acc.
  - split; [apply kept_in_refl_eq | constructor].
  - cbn [fold_left]. destruct (IH (concat acc page)) as [Hacc Hpages].
    split; [|constructor; [|exact Hpages]].
    + exact (kept_in_trans _ _ _ (kept_in_concat_l acc page) Hacc).
    + exact (kept_in_trans _ _ _ (kept_in_concat_r acc page) Hacc).
Qed.

Lemma fetched_app pages_of items1 items2 bigdata :
  fetched pages_of (items1 ++ items2) bigdata
  = fetched pages_of items2 (fetched pages_of items1 bigdata).
Proof. unfold fetched. now rewrite flat_map_app, fold_left_app. Qed.

Lemma fetch_fetched (w : web) (pages_of : Z -> list frame) (fuel : nat)
    (items : list Z) :
  forall bigdata,
    (forall item, item ∈ items ->
       (forall i page, pages_of item !! i = Some page ->
          exists rest, w item (3000 * Z.of_nat i) = Html (page :: rest))
       /\ (w item (3000 * Z.of_nat (length (pages_of item))) = RequestFailed
           \/ w item (3000 * Z.of_nat (length (pages_of item))) = Html [])
       /\ (length (pages_of item) < fuel)%nat) ->
    fetch fuel w items bigdata = Some (fetched pages_of items bigdata).
Proof.
  induction items as [|item items IH]; intros bigdata Hitems; [reflexivity|].
  destruct (Hitems item) as (Hok & Hfail & Hfuel); [now left|].
  cbn [fetch]. rewrite (paginate_pages (pages_of item) fuel w item 0 bigdata);
    [| exact Hok | now apply get_page_raises | exact Hfuel].
  change (item :: items) with ([item] ++ items). rewrite fetched_app.
  unfold fetched at 2. cbn [flat_map]. rewrite app_nil_r.
  apply IH. intros c Hc. apply Hitems. now right.
Qed.

(** C8. The pagination of an item ends at the first page whose fetch or
    parse raises, be it a request that fails or a body without any table,
    and at no page before it.  Let the site hold, for every item of the
    list, the pages [pages_of item] and after them such a page.  Then, for
    the item [commodity] that comes after the items [before]: the loop of
    the item returns the frame that the previous items left, joined with
    the pages of the item; the frame keeps what the run started with and
    every page of the previous items and of this one, each row with the
    values it had, and when the pages are well formed and share a header,
    its rows are exactly those rows in the order they were read; and the
    fetch goes on with the items [after], whose pages are joined to that
    frame, nothing of which is lost on the way. *)
Theorem pagination_stops_at_first_failure (w : web) (pages_of : Z -> list frame)
    (before after : list Z) (commodity : Z) (bigdata : frame) (fuel : nat) :
  (forall item, item ∈ before ++ commodity :: after ->
     (forall i page, pages_of item !! i = Some page ->
        exists rest, w item (3000 * Z.of_nat i) = Html (page :: rest))
     /\ (w item (3000 * Z.of_nat (length (pages_of item))) = RequestFailed
         \/ w item (3000 * Z.of_nat (length (pages_of item))) = Html [])
     /\ (length (pages_of item) < fuel)%nat) ->
  paginate fuel w commodity 0 (fetched pages_of before bigdata)
  = Some (fold_left concat (pages_of commodity) (fetched pages_of before bigdata))
  /\ fetch fuel w (before ++ [commodity]) bigdata
     = Some (fetched pages_of (before ++ [commodity]) bigdata)
  /\ fetched pages_of (before ++ [commodity]) bigdata
     = fold_left concat (pages_of commodity) (fetched pages_of before bigdata)
  /\ kept_in bigdata (fetched pages_of (before ++ [commodity]) bigdata)
  /\ (forall item page, item ∈ before ++ [commodity] -> page ∈ pages_of item ->
        kept_in page (fetched pages_of (before ++ [commodity]) bigdata))
  /\ length (rows (fetched pages_of (before ++ [commodity]) bigdata))
     = (length (rows bigdata)
        + sum_list (map (fun page => length (rows page))
                        (flat_map pages_of (before ++ [commodity]))))%nat
  /\ (forall cols,
        bigdata = empty_frame \/ (well_formed bigdata /\ columns bigdata = cols) ->
        (forall item page, item ∈ before ++ [commodity] -> page ∈ pages_of item ->
           well_formed page /\ columns page = cols) ->
        rows (fetched pages_of (before ++ [commodity]) bigdata)
        = rows bigdata ++ flat_map rows (flat_map pages_of (before ++ [commodity])))
  /\ fetch fuel w (before ++ commodity :: after) bigdata
     = Some (fetched pages_of after (fetched pages_of (before ++ [commodity]) bigdata))
  /\ kept_in (fetched pages_of (before ++ [commodity]) bigdata)
             (fetched pages_of after (fetched pages_of (before ++ [commodity]) bigdata)).
Proof.
  intros Hitems.
  assert (Hhere : fetched pages_of (before ++ [commodity]) bigdata
                  = fold_left concat (pages_of commodity)
                      (fetched pages_of before bigdata)).
  { rewrite fetched_app. unfold fetched at 1. cbn [flat_map]. now rewrite app_nil_r. }
  destruct (Hitems commodity) as (Hok & Hfail & Hfuel).
  { apply elem_of_app. right. now left. }
  split; [|split; [|split; [|split; [|split; [|split; [|split; [|split]]]]]]].
  - apply paginate_pages; [exact Hok | now apply get_page_raises | exact Hfuel].
  - apply fetch_fetched. intros item Hitem. apply Hitems.
    apply elem_of_app in Hitem as [Hitem|Hitem]; apply elem_of_app; [now left|].
    right. apply list_elem_of_singleton in Hitem as ->. now left.
  - exact Hhere.
  - apply kept_in_fold.
  - intros item page Hitem Hpage.
    destruct (kept_in_fold (flat_map pages_of (before ++ [commodity])) bigdata)
      as [_ Hall].
    rewrite Forall_forall in Hall. apply Hall.
    apply list_elem_of_In, in_flat_map. exists item. now rewrite <- !list_elem_of_In.
  - apply fold_concat_rows_length.
  - intros cols Hbig Hpages.
    apply (fold_concat_same_header cols); [|exact Hbig].
    apply Forall_forall. intros page Hpage.
    apply list_elem_of_In, in_flat_map in Hpage as (item & Hitem & Hpage).
    apply (Hpages item page); now apply list_elem_of_In.
  - rewrite <- fetched_app, <- app_assoc. apply fetch_fetched. exact Hitems.
  - apply kept_in_fold.
Qed.

Lemma mixed_web_pages (item : Z) :
  (forall i page, mixed_pages item !! i = Some page ->
     exists rest, mixed_web item (3000 * Z.of_nat i) = Html (page :: rest))
  /\ (mixed_web item (3000 * Z.of_nat (length (mixed_pages item))) = RequestFailed
      \/ mixed_web item (3000 * Z.of_nat (length (mixed_pages item))) = Html [])
  /\ (length (mixed_pages item) < 3)%nat.
Proof.
  unfold mixed_web, mixed_pages. destruct (item =? 140); (split; [|split]).
  - intros [|[|i]] page Hi; try discriminate; injection Hi as <-; now exists [].
  - right. reflexivity.
  - simpl. lia.
  - intros [|i] page Hi; try discriminate; injection Hi as <-; now exists [].
  - left. reflexivity.
  - simpl. lia.
Qed.

Lemma pagination_stops_at_first_failure_witness :
  paginate 3 mixed_web 140 0 (fetched mixed_pages [168] empty_frame)
  = Some (fold_left concat (mixed_pages 140) (fetched mixed_pages [168] empty_frame))
  /\ fetch 3 mixed_web ([168] ++ [140]) empty_frame
     = Some (fetched mixed_pages ([168] ++ [140]) empty_frame)
  /\ fetched mixed_pages ([168] ++ [140]) empty_frame
     = fold_left concat (mixed_pages 140) (fetched mixed_pages [168] empty_frame)
  /\ kept_in empty_frame (fetched mixed_pages ([168] ++ [140]) empty_frame)
  /\ (forall item page, item ∈ [168] ++ [140] -> page ∈ mixed_pages item ->
        kept_in page (fetched mixed_pages ([168] ++ [140]) empty_frame))
  /\ length (rows (fetched mixed_pages ([168] ++ [140]) empty_frame))
     = (length (rows empty_frame)
        + sum_list (map (fun page => length (rows page))
                        (flat_map mixed_pages ([168%Z] ++ [140%Z]))))%nat
  /\ (forall cols,
        empty_frame = empty_frame
        \/ (well_formed empty_frame /\ columns empty_frame = cols) ->
        (forall item page, item ∈ [168] ++ [140] -> page ∈ mixed_pages item ->
           well_formed page /\ columns page = cols) ->
        rows (fetched mixed_pages ([168] ++ [140]) empty_frame)
        = rows empty_frame ++ flat_map rows (flat_map mixed_pages ([168] ++ [140])))
  /\ fetch 3 mixed_web ([168] ++ 140 :: [167]) empty_frame
     = Some (fetched mixed_pages [167]
               (fetched mixed_pages ([168] ++ [140]) empty_frame))
  /\ kept_in (fetched mixed_pages ([168] ++ [140]) empty_frame)
             (fetched mixed_pages [167]
                (fetched mixed_pages ([168] ++ [140]) empty_frame)).
Proof.
  apply (pagination_stops_at_first_failure mixed_web mixed_pages [168] [167] 140
           empty_frame 3).
  intros item _. exact (mixed_web_pages item).
Defined.

(** ** Runs *)

Section RunFacts.
Context {R : Runtime}.

(** C4. A run that fetched no row at all exits with status 0 and has
    made no call on the destination store. *)
Theorem empty_batch_exits_without_store_call (p : pipeline) (now : datetime)
    (w : web) (bq : client) (fuel : nat) (bigdata : frame) :
  fetch fuel w (commodities p) empty_frame = Some bigdata ->
  rows bigdata = [] ->
  run p now w bq fuel = (SysExit 0, [])
  /\ exit_status (run p now w bq fuel).1 = Some 0.
Proof.
  intros Hfetch Hrows. unfold run, process. rewrite Hfetch.
  unfold empty. now rewrite Hrows.
Qed.

Lemma setitem_columns i values f f' :
  setitem i values f = Ok f' -> columns f' = columns f.
Proof. unfold setitem. destruct (decide _); [|discriminate]. now intros [= <-]. Qed.

Lemma standardize_date_columns f f' :
  standardize_date f = Ok f' -> columns f' = columns f.
Proof.
  unfold standardize_date. destruct (getitem _ f) as [[i values|]|]; simpl; try discriminate.
  destruct (to_datetime values); simpl; [|discriminate]. apply setitem_columns.
Qed.

Lemma standardize_price_columns name f f' :
  standardize_price name f = Ok f' -> columns f' = columns f.
Proof.
  unfold standardize_price. destruct (getitem _ f) as [[i values|]|]; simpl; try discriminate.
  destruct (str_accessor values); simpl; [|discriminate]. apply setitem_columns.
Qed.

(** The drop of line 99 raises when one of its labels is missing. *)
Lemma drop_columns_missing labels f :
  ~ Forall (fun l => l ∈ columns f) labels -> drop_columns labels f = Raise KeyError.
Proof. intros H. unfold drop_columns. now rewrite decide_False. Qed.

Lemma normalize_fertilizer_missing bigdata :
  ~ (str "grade" ∈ map clean_name (columns bigdata)
     /\ str "sex" ∈ map clean_name (columns bigdata)) ->
  exists e, normalize Fertilizer bigdata = Raise e.
Proof.
  intros Hmiss. unfold normalize.
  destruct (standardize_date _) as [f1|e] eqn:E1; simpl; [|eauto].
  destruct (standardize_price _ f1) as [f2|e] eqn:E2; simpl; [|eauto].
  destruct (standardize_price _ f2) as [f3|e] eqn:E3; simpl; [|eauto].
  exists KeyError. apply drop_columns_missing.
  apply standardize_date_columns in E1. apply standardize_price_columns in E2, E3.
  rewrite E3, E2, E1. simpl. intros Hall. apply Hmiss.
  inversion Hall as [|? ? Hg Hrest]; subst. inversion Hrest; subst. now split.
Qed.

(** C9. A fertilizer run whose fetched batch is not empty and whose cleaned
    column names do not include both [grade] and [sex] ends in an
    uncaught exception raised by the normalisation, and has made no call
    on the destination store. *)
Theorem fertilizer_without_grade_sex_fails (now : datetime) (w : web)
    (bq : client) (fuel : nat) (bigdata : frame) :
  fetch fuel w (commodities Fertilizer) empty_frame = Some bigdata ->
  empty bigdata = false ->
  ~ (str "grade" ∈ map clean_name (columns bigdata)
     /\ str "sex" ∈ map clean_name (columns bigdata)) ->
  exists e, normalize Fertilizer bigdata = Raise e
            /\ run Fertilizer now w bq fuel = (Traceback e, [])
            /\ exit_status (run Fertilizer now w bq fuel).1 = Some 1.
Proof.
  intros Hfetch Hne Hmiss.
  destruct (normalize_fertilizer_missing bigdata Hmiss) as [e He].
  exists e. split; [exact He|]. unfold run, process.
  rewrite Hfetch, Hne, He. now split.
Qed.
End RunFacts.

Lemma empty_batch_exits_without_store_call_witness :
  fetch 3 no_table_web (commodities Livestock) empty_frame = Some empty_frame
  /\ @run ascii_runtime Livestock april_first no_table_web
       (sample_client (fun _ => None) 0 None) 3 = (SysExit 0, [])
  /\ exit_status (@run ascii_runtime Livestock april_first no_table_web
       (sample_client (fun _ => None) 0 None) 3).1 = Some 0.
Proof.
  split; [reflexivity|].
  apply (@empty_batch_exits_without_store_call ascii_runtime Livestock april_first
           no_table_web (sample_client (fun _ => None) 0 None) 3 empty_frame);
    reflexivity.
Defined.

Lemma fertilizer_without_grade_sex_fails_witness :
  exists e, @normalize ascii_runtime Fertilizer short_page = Raise e
            /\ @run ascii_runtime Fertilizer march_seventh short_page_web
                 (sample_client (fun _ => None) 0 None) 3 = (Traceback e, [])
            /\ exit_status (@run ascii_runtime Fertilizer march_seventh short_page_web
                 (sample_client (fun _ => None) 0 None) 3).1 = Some 1.
Proof.
  apply (@fertilizer_without_grade_sex_fails ascii_runtime march_seventh
           short_page_web (sample_client (fun _ => None) 0 None) 3 short_page).
  - vm_compute. reflexivity.
  - reflexivity.
  - intros [Hg _]. revert Hg.
    apply (proj1 (bool_decide_eq_false
      (str "grade" ∈ map (@clean_name ascii_runtime) (columns short_page)))).
    vm_compute. reflexivity.
Defined.

(** ** Scripts and histories *)

Lemma extends_ret {A} (a : A) : extends (mret a).
Proof. intros h. exists []. simpl. now rewrite app_nil_r. Qed.

Lemma extends_issue {A} c (answer : history -> result A) : extends (issue c answer).
Proof. intros h. unfold issue. destruct (answer h); simpl; eauto. Qed.

Lemma extends_lift {A} (r : result A) : extends (lift r).
Proof. intros h. exists []. unfold lift. destruct r; simpl; now rewrite app_nil_r. Qed.

Lemma extends_bind {A B} (m : script A) (k : A -> script B) :
  extends m -> (forall a, extends (k a)) -> extends (m ≫= k).
Proof.
  intros Hm Hk h. unfold mbind, script_bind.
  destruct (Hm h) as [ext Hext]. destruct (m h) as [[a|e|] h1]; simpl in *; subst h1.
  - destruct (Hk a (h ++ ext)) as [ext' Hext']. exists (ext ++ ext').
    now rewrite Hext', app_assoc.
  - eauto.
  - eauto.
Qed.

Lemma extends_try_NotFound {A} (body handler : script A) :
  extends body -> extends handler -> extends (try_except_NotFound body handler).
Proof.
  intros Hb Hh h. unfold try_except_NotFound.
  destruct (Hb h) as [ext Hext]. destruct (body h) as [[a|e|] h1]; simpl in *; subst h1; eauto.
  destruct e; simpl; eauto.
  destruct (Hh (h ++ ext)) as [ext' Hext']. exists (ext ++ ext').
  now rewrite Hext', app_assoc.
Qed.

Lemma extends_try_Exception (body : script unit) :
  extends body -> extends (try_except_Exception body).
Proof.
  intros Hb h. unfold try_except_Exception.
  destruct (Hb h) as [ext Hext]. destruct (body h) as [[a|e|] h1]; simpl in *; eauto.
Qed.

Lemma extends_wait_done fuel bq job : extends (wait_done fuel bq job).
Proof.
  induction fuel as [|fuel IH]; intros h; simpl.
  - exists []. destruct (job_done bq h job); simpl; now rewrite app_nil_r.
  - destruct (job_done bq h job).
    + exists []. simpl. now rewrite app_nil_r.
    + apply (extends_bind (issue _ _) (fun _ => wait_done fuel bq job));
        [apply extends_issue | intros _; exact IH].
Qed.

(** The reconciliation pass begins with its read of the current table. *)
Lemma reconcile_begins_with_read p now bq fuel h :
  exists st post,
    (reconcile p now bq fuel h).2
    = h ++ (QuerySelect (current_table p now) (reconcile_ordering p), st) :: post.
Proof.
  unfold reconcile, query_to_dataframe.
  unfold mbind at 1. unfold script_bind, issue at 1.
  destruct (query_select bq h _ _) as [data|e]; simpl.
  - match goal with |- context [?k (h ++ ?l)] =>
      assert (Hk : extends k); [|destruct (Hk (h ++ l)) as [ext Hext]] end.
    { repeat first
        [ apply extends_bind; [|intros ?]
        | apply extends_issue | apply extends_lift | apply extends_wait_done
        | apply extends_try_Exception ]. }
    exists None, ext. rewrite Hext. now rewrite <- app_assoc.
  - now exists (Some e), [].
Qed.

Section StorePhase.
Context {R : Runtime}.

(** A run with a batch is the append phase followed, unless an exception
    escapes it, by the reconciliation pass. *)
Lemma run_with_batch p now w bq fuel raw batch :
  fetch fuel w (commodities p) empty_frame = Some raw ->
  empty raw = false ->
  normalize p raw = Ok batch ->
  run p now w bq fuel
  = match append_phase p now bq batch [] with
    | (Next _, h0) =>
        match reconcile p now bq fuel h0 with
        | (Next _, h) => (Completed, h)
        | (Raised e, h) => (Traceback e, h)
        | (Stalled, h) => (Unfinished, h)
        end
    | (Raised e, h0) => (Traceback e, h0)
    | (Stalled, h0) => (Unfinished, h0)
    end.
Proof.
  intros Hfetch Hne Hnorm. unfold run, process. rewrite Hfetch, Hne, Hnorm.
  unfold mbind at 1. unfold script_bind.
  now destruct (append_phase p now bq batch []) as [[[]|e|] h0].
Qed.

(** When the append phase ends without an escaping exception, the next
    call of the run is the read of the reconciliation pass. *)
Lemma run_reaches_reconcile p now w bq fuel raw batch h0 :
  fetch fuel w (commodities p) empty_frame = Some raw ->
  empty raw = false ->
  normalize p raw = Ok batch ->
  append_phase p now bq batch [] = (Next tt, h0) ->
  exists st post,
    (run p now w bq fuel).2
    = h0 ++ (QuerySelect (current_table p now) (reconcile_ordering p), st) :: post.
Proof.
  intros Hfetch Hne Hnorm Happ.
  rewrite (run_with_batch p now w bq fuel raw batch Hfetch Hne Hnorm), Happ.
  destruct (reconcile_begins_with_read p now bq fuel h0) as (st & post & Hrec).
  exists st, post. rewrite <- Hrec.
  now destruct (reconcile p now bq fuel h0) as [[[]|e|] h].
Qed.
End StorePhase.

(** ** Appender and RolloverMerger *)

Lemma last_entry_inj (pre pre' : history) x y : pre ++ [x] = pre' ++ [y] -> x = y.
Proof. intros H. now apply app_inj_tail in H as [_ ->]. Qed.

(** The three ways the load and its wait can go. *)
Lemma load_and_wait_cases bq data t h :
  match load_table_from_dataframe bq h data t with
  | Raise e =>
      load_and_wait bq data t h = (Raised e, h ++ [(LoadTable data t, Some e)])
  | Ok job =>
      match job_result bq (h ++ [(LoadTable data t, None)]) job with
      | Raise e =>
          load_and_wait bq data t h
          = (Raised e, h ++ [(LoadTable data t, None); (JobResult job, Some e)])
      | Ok _ =>
          load_and_wait bq data t h
          = (Next tt, h ++ [(LoadTable data t, None); (JobResult job, None)])
      end
  end.
Proof.
  unfold load_and_wait, mbind, script_bind, issue.
  destruct (load_table_from_dataframe bq h data t) as [job|e]; [|reflexivity].
  destruct (job_result bq _ job) as [[]|e]; now rewrite <- app_assoc.
Qed.

Lemma load_and_wait_shapes bq data t h fl h' :
  load_and_wait bq data t h = (fl, h') ->
  (fl = Next tt /\ appended data t h')
  \/ (exists c e, fl = Raised e /\ ends_raising c e h' /\ is_append t c).
Proof.
  pose proof (load_and_wait_cases bq data t h) as Hc.
  destruct (load_table_from_dataframe bq h data t) as [job|e].
  - destruct (job_result bq _ job) as [[]|e]; rewrite Hc; intros [= <- <-].
    + left. split; [reflexivity|]. now exists h, job.
    + right. exists (JobResult job), e. split; [reflexivity|]. split.
      * exists (h ++ [(LoadTable data t, None)]). now rewrite <- app_assoc.
      * right. now exists job.
  - rewrite Hc. intros [= <- <-]. right. exists (LoadTable data t), e.
    split; [reflexivity|]. split; [now exists h|]. left. now exists data.
Qed.

(** The block of the first of the month never lets an exception out: it
    ends with the merged batch appended, or with a call that raised. *)
Lemma first_of_month_load_shapes p now bq batch h fl h' :
  first_of_month_load p now bq batch h = (fl, h') ->
  fl = Next tt
  /\ ((exists data, appended data (current_table p now) h'
                    /\ (data = batch \/ exists prev_data, data = concat prev_data batch))
      \/ (exists c e, ends_raising c e h'
                      /\ (is_append (current_table p now) c
                          \/ (c = QuerySelect (prev_table p now) (prev_ordering p)
                              /\ e <> NotFound)))).
Proof.
  unfold first_of_month_load, try_except_Exception.
  unfold mbind at 1. unfold script_bind, try_except_NotFound, query_to_dataframe.
  unfold mbind at 1. unfold script_bind, issue.
  destruct (query_select bq h _ _) as [prev_data|e]; simpl.
  - destruct (load_and_wait bq _ _ _) as [fl1 h1'] eqn:Hl.
    destruct (load_and_wait_shapes _ _ _ _ _ _ Hl) as [[-> Happ]|(c & e & -> & Hr & Hc)];
      intros [= <- <-]; (split; [reflexivity|]).
    + left. eauto.
    + right. exists c, e. eauto.
  - destruct e; simpl;
      try (intros [= <- <-]; split; [reflexivity|]; right;
           eexists _, _; split; [now exists h | right; split; [reflexivity | discriminate]]).
    destruct (load_and_wait bq _ _ _) as [fl1 h1'] eqn:Hl.
    destruct (load_and_wait_shapes _ _ _ _ _ _ Hl) as [[-> Happ]|(c & e & -> & Hr & Hc)];
      intros [= <- <-]; (split; [reflexivity|]).
    + left. eauto.
    + right. exists c, e. eauto.
Qed.

(** The append phase by cases: where it ends normally, the batch was
    appended, or the guard of fertilizer.py found rows of the current
    month, or a call of the first-of-month block raised and was caught. *)
Lemma append_phase_shapes p now bq batch fl h0 :
  append_phase p now bq batch [] = (fl, h0) ->
  (fl = Next tt
   /\ exists data, appended data (current_table p now) h0
                   /\ (data = batch
                       \/ (day now = 1 /\ exists prev_data, data = concat prev_data batch)))
  \/ (fl = Next tt /\ p = Fertilizer /\ day now = 1
      /\ exists cnt,
           query_count bq [] (current_table p now) (month now) (year now) = Ok cnt
           /\ 0 < cnt
           /\ h0 = [(QueryCount (current_table p now) (month now) (year now), None)])
  \/ (fl = Next tt /\ day now = 1
      /\ exists c e, ends_raising c e h0
                     /\ (is_append (current_table p now) c
                         \/ (c = QuerySelect (prev_table p now) (prev_ordering p)
                             /\ e <> NotFound)))
  \/ (exists c e, fl = Raised e /\ ends_raising c e h0
                  /\ ((day now <> 1 /\ is_append (current_table p now) c)
                      \/ (day now = 1 /\ p = Fertilizer /\ e <> NotFound
                          /\ c = QueryCount (current_table p now) (month now) (year now)))).
Proof.
  assert (Hfirst : forall h,
    day now = 1 -> first_of_month_load p now bq batch h = (fl, h0) ->
    (fl = Next tt
     /\ exists data, appended data (current_table p now) h0
                     /\ (data = batch
                         \/ (day now = 1 /\ exists prev_data, data = concat prev_data batch)))
    \/ (fl = Next tt /\ day now = 1
        /\ exists c e, ends_raising c e h0
                       /\ (is_append (current_table p now) c
                           \/ (c = QuerySelect (prev_table p now) (prev_ordering p)
                               /\ e <> NotFound)))).
  { intros h Hday Hf. apply first_of_month_load_shapes in Hf as [-> [(data & Ha & Hd)|Hr]].
    - left. split; [reflexivity|]. exists data. split; [exact Ha|].
      destruct Hd as [->|Hd]; [now left | right; now split].
    - right. now repeat split. }
  unfold append_phase. destruct (day now =? 1) eqn:Hday.
  - apply Z.eqb_eq in Hday. destruct p.
    + unfold has_current_month_data, try_except_NotFound.
      unfold mbind at 1. unfold script_bind. unfold mbind at 1. unfold script_bind, issue.
      simpl app.
      destruct (query_count bq [] _ _ _) as [cnt|e] eqn:Hcnt; simpl.
      * destruct (0 <? cnt) eqn:Hpos; simpl.
        -- intros [= <- <-]. right. left. repeat split; try assumption.
           exists cnt. apply Z.ltb_lt in Hpos. now repeat split.
        -- intros Hf. destruct (Hfirst _ Hday Hf) as [H|H]; [now left | right; right; now left].
      * destruct e; simpl;
          try (intros [= <- <-]; right; right; right; eexists _, _;
               split; [reflexivity|]; split; [now exists [] |];
               right; repeat split; try assumption; discriminate).
        intros Hf. destruct (Hfirst _ Hday Hf) as [H|H]; [now left | right; right; now left].
    + intros Hf. destruct (Hfirst _ Hday Hf) as [H|H]; [now left | right; right; now left].
  - apply Z.eqb_neq in Hday. intros Hl.
    apply load_and_wait_shapes in Hl as [[-> Ha]|(c & e & -> & Hr & Hc)].
    + left. split; [reflexivity|]. exists batch. split; [exact Ha | now left].
    + right. right. right. exists c, e. split; [reflexivity|]. split; [exact Hr|].
      left. now split.
Qed.

Lemma appended_not_raising data t c e h : appended data t h -> ends_raising c e h -> False.
Proof.
  intros (pre & job & ->) (pre' & Heq).
  change [(LoadTable data t, None); (JobResult job, None)]
    with ([(LoadTable data t, @None exn)] ++ [(JobResult job, None)]) in Heq.
  rewrite app_assoc in Heq. apply last_entry_inj in Heq. discriminate.
Qed.

Lemma ends_raising_inj c e c' e' h :
  ends_raising c e h -> ends_raising c' e' h -> c = c' /\ e = e'.
Proof.
  intros (pre & ->) (pre' & Heq). apply last_entry_inj in Heq.
  now injection Heq as -> ->.
Qed.

(** The block of the first of the month by the answer to its read of the
    previous table. *)
Lemma first_of_month_load_cases p now bq batch h1 :
  first_of_month_load p now bq batch h1
  = match query_select bq h1 (prev_table p now) (prev_ordering p) with
    | Ok prev_data =>
        try_except_Exception
          (load_and_wait bq (concat prev_data batch) (current_table p now))
          (h1 ++ [(QuerySelect (prev_table p now) (prev_ordering p), None)])
    | Raise NotFound =>
        try_except_Exception
          (load_and_wait bq batch (current_table p now))
          (h1 ++ [(QuerySelect (prev_table p now) (prev_ordering p), Some NotFound)])
    | Raise e =>
        (Next tt, h1 ++ [(QuerySelect (prev_table p now) (prev_ordering p), Some e)])
    end.
Proof.
  unfold first_of_month_load, try_except_Exception.
  unfold mbind at 1. unfold script_bind, try_except_NotFound, query_to_dataframe.
  unfold mbind at 1. unfold script_bind, issue at 1.
  destruct (query_select bq h1 _ _) as [prev_data|e]; [reflexivity|].
  destruct e; reflexivity.
Qed.

(** The append phase of a first of the month that is not held back by
    the guard is the block of the load. *)
Lemma append_phase_unguarded p now bq batch h1 :
  day now = 1 -> unguarded p now bq h1 ->
  append_phase p now bq batch [] = first_of_month_load p now bq batch h1.
Proof.
  intros Hday Hun. unfold append_phase. rewrite (proj2 (Z.eqb_eq _ _) Hday).
  destruct p; [|now rewrite Hun].
  unfold has_current_month_data, try_except_NotFound.
  unfold mbind at 1. unfold script_bind. unfold mbind at 1. unfold script_bind, issue.
  simpl app.
  destruct Hun as [(cnt & Hcnt & Hle & ->)|[Hcnt ->]]; rewrite Hcnt; simpl.
  - now rewrite (proj2 (Z.ltb_ge 0 cnt) Hle).
  - reflexivity.
Qed.

Section AppendClaims.
Context {R : Runtime}.

Lemma caught_append_reconciles p now w bq fuel raw batch data h2 :
  fetch fuel w (commodities p) empty_frame = Some raw ->
  empty raw = false ->
  normalize p raw = Ok batch ->
  append_phase p now bq batch []
  = try_except_Exception (load_and_wait bq data (current_table p now)) h2 ->
  append_caught p now bq data h2 (run p now w bq fuel).2.
Proof.
  intros Hfetch Hne Hnorm Happ. unfold append_caught.
  unfold try_except_Exception in Happ.
  pose proof (load_and_wait_cases bq data (current_table p now) h2) as Hc.
  destruct (load_table_from_dataframe bq h2 data _) as [job|e].
  - destruct (job_result bq _ job) as [[]|e]; rewrite Hc in Happ;
      exact (run_reaches_reconcile p now w bq fuel raw batch _ Hfetch Hne Hnorm Happ).
  - rewrite Hc in Happ.
    exact (run_reaches_reconcile p now w bq fuel raw batch _ Hfetch Hne Hnorm Happ).
Qed.

(** C2, as the code has it.  What a run with a normalised batch does to
    the store before the reconciliation pass is fixed by the day and by the
    answers of the store.

    On a day other than the first of the month the batch is loaded into
    the current table and its job waited for, and the read of the
    reconciliation pass is the next call; a load or a wait that raises
    ends the run there.

    On the first of the month fertilizer.py first counts the rows of the
    current month in the current table: as soon as the count is positive
    nothing is loaded and the count is followed at once by the read of the
    reconciliation pass; a count that raises anything but [NotFound] ends
    the run.

    On the first of the month otherwise (livestock.py; fertilizer.py when
    the count is not positive or the table is not found) the previous
    table is read: when the store answers with its rows, the frame that is
    loaded is those rows followed by the batch; when the table is not
    found, the batch alone; any other exception of the read is caught and
    the read of the reconciliation pass comes next with nothing loaded.
    The load and the wait are followed by the read of the reconciliation
    pass whether they succeed or raise. *)
Theorem batch_appended_unless_guarded_or_caught (p : pipeline) (now : datetime)
    (w : web) (bq : client) (fuel : nat) (raw batch : frame) :
  fetch fuel w (commodities p) empty_frame = Some raw ->
  empty raw = false ->
  normalize p raw = Ok batch ->
  (day now <> 1 ->
     match load_table_from_dataframe bq [] batch (current_table p now) with
     | Raise e =>
         run p now w bq fuel
         = (Traceback e, [(LoadTable batch (current_table p now), Some e)])
     | Ok job =>
         match job_result bq [(LoadTable batch (current_table p now), None)] job with
         | Raise e =>
             run p now w bq fuel
             = (Traceback e, [(LoadTable batch (current_table p now), None);
                              (JobResult job, Some e)])
         | Ok _ =>
             reconciles_after p now
               [(LoadTable batch (current_table p now), None); (JobResult job, None)]
               (run p now w bq fuel).2
         end
     end)
  /\ (day now = 1 -> p = Fertilizer ->
        match query_count bq [] (current_table p now) (month now) (year now) with
        | Ok cnt =>
            0 < cnt ->
            reconciles_after p now
              [(QueryCount (current_table p now) (month now) (year now), None)]
              (run p now w bq fuel).2
        | Raise e =>
            e <> NotFound ->
            run p now w bq fuel
            = (Traceback e,
               [(QueryCount (current_table p now) (month now) (year now), Some e)])
        end)
  /\ (day now = 1 -> forall h1, unguarded p now bq h1 ->
        match query_select bq h1 (prev_table p now) (prev_ordering p) with
        | Ok prev_data =>
            append_caught p now bq (concat prev_data batch)
              (h1 ++ [(QuerySelect (prev_table p now) (prev_ordering p), None)])
              (run p now w bq fuel).2
        | Raise NotFound =>
            append_caught p now bq batch
              (h1 ++ [(QuerySelect (prev_table p now) (prev_ordering p),
                       Some NotFound)])
              (run p now w bq fuel).2
        | Raise e =>
            reconciles_after p now
              (h1 ++ [(QuerySelect (prev_table p now) (prev_ordering p), Some e)])
              (run p now w bq fuel).2
        end).
Proof.
  intros Hfetch Hne Hnorm.
  pose proof (run_with_batch p now w bq fuel raw batch Hfetch Hne Hnorm) as Hrun.
  split; [|split].
  - intros Hday.
    assert (Happ : append_phase p now bq batch []
                   = load_and_wait bq batch (current_table p now) []).
    { unfold append_phase. now rewrite (proj2 (Z.eqb_neq _ _) Hday). }
    pose proof (load_and_wait_cases bq batch (current_table p now) []) as Hc.
    simpl app in Hc.
    destruct (load_table_from_dataframe bq [] batch _) as [job|e].
    + destruct (job_result bq _ job) as [[]|e]; rewrite Hc in Happ.
      * exact (run_reaches_reconcile p now w bq fuel raw batch _ Hfetch Hne Hnorm Happ).
      * now rewrite Hrun, Happ.
    + rewrite Hc in Happ. now rewrite Hrun, Happ.
  - intros Hday ->.
    assert (Happ : append_phase Fertilizer now bq batch []
      = match query_count bq [] (current_table Fertilizer now) (month now) (year now) with
        | Ok cnt =>
            if 0 <? cnt
            then (Next tt, [(QueryCount (current_table Fertilizer now)
                               (month now) (year now), None)])
            else first_of_month_load Fertilizer now bq batch
                   [(QueryCount (current_table Fertilizer now)
                       (month now) (year now), None)]
        | Raise NotFound =>
            first_of_month_load Fertilizer now bq batch
              [(QueryCount (current_table Fertilizer now)
                  (month now) (year now), Some NotFound)]
        | Raise e =>
            (Raised e, [(QueryCount (current_table Fertilizer now)
                           (month now) (year now), Some e)])
        end).
    { unfold append_phase. rewrite (proj2 (Z.eqb_eq _ _) Hday).
      unfold has_current_month_data, try_except_NotFound.
      unfold mbind at 1. unfold script_bind. unfold mbind at 1.
      unfold script_bind, issue. simpl app.
      destruct (query_count bq [] _ _ _) as [cnt|e]; simpl.
      - now destruct (0 <? cnt).
      - now destruct e. }
    destruct (query_count bq [] _ _ _) as [cnt|e].
    + intros Hpos. rewrite (proj2 (Z.ltb_lt 0 cnt) Hpos) in Happ.
      exact (run_reaches_reconcile Fertilizer now w bq fuel raw batch _
               Hfetch Hne Hnorm Happ).
    + intros He. rewrite Hrun. destruct e; now rewrite Happ.
  - intros Hday h1 Hun.
    pose proof (append_phase_unguarded p now bq batch h1 Hday Hun) as Happ.
    rewrite first_of_month_load_cases in Happ.
    destruct (query_select bq h1 _ _) as [prev_data|e].
    + exact (caught_append_reconciles p now w bq fuel raw batch _ _
               Hfetch Hne Hnorm Happ).
    + destruct e;
        try exact (run_reaches_reconcile p now w bq fuel raw batch _
                     Hfetch Hne Hnorm Happ).
      exact (caught_append_reconciles p now w bq fuel raw batch _ _
               Hfetch Hne Hnorm Happ).
Qed.

(** C3, as the code has it.  When the load of the batch into the current
    table, or the wait for its job, raises: on a day other than the first
    of the month the exception escapes, the run ends with a non-zero
    status and the failed call is the last one made on the store, so that
    no read of the reconciliation pass follows; on the first of the month
    the exception is caught and the next call of the run is the read of
    the reconciliation pass. *)
Theorem append_failure_fatal_except_first_of_month (p : pipeline)
    (now : datetime) (w : web) (bq : client) (fuel : nat) (raw batch : frame)
    (fl : flow unit) (h0 : history) (c : call) (e : exn) :
  fetch fuel w (commodities p) empty_frame = Some raw ->
  empty raw = false ->
  normalize p raw = Ok batch ->
  append_phase p now bq batch [] = (fl, h0) ->
  ends_raising c e h0 ->
  is_append (current_table p now) c ->
  (day now <> 1 ->
     run p now w bq fuel = (Traceback e, h0)
     /\ exit_status (run p now w bq fuel).1 = Some 1
     /\ forall t o st, (QuerySelect t o, st) ∉ (run p now w bq fuel).2)
  /\ (day now = 1 ->
        fl = Next tt
        /\ exists st post,
             (run p now w bq fuel).2
             = h0 ++ (QuerySelect (current_table p now) (reconcile_ordering p), st) :: post).
Proof.
  intros Hfetch Hne Hnorm Happ Hr Hc.
  pose proof (run_with_batch p now w bq fuel raw batch Hfetch Hne Hnorm) as Hrun.
  destruct (append_phase_shapes p now bq batch _ _ Happ)
    as [(-> & data & Ha & _)|[(-> & _ & _ & cnt & _ & _ & ->)|[(-> & Hday & _)
        |(c' & e' & -> & Hr' & Hcase)]]].
  - destruct (appended_not_raising _ _ _ _ _ Ha Hr).
  - destruct Hr as [pre Heq]. apply (last_entry_inj []) in Heq. discriminate.
  - split; [intros Hd; contradiction|]. intros _. split; [reflexivity|].
    exact (run_reaches_reconcile p now w bq fuel raw batch h0 Hfetch Hne Hnorm Happ).
  - destruct (ends_raising_inj _ _ _ _ _ Hr Hr') as [<- <-].
    destruct Hcase as [[Hday _]|(Hday & _ & _ & ->)].
    + split; [|intros Hd; contradiction]. intros _.
      rewrite Hrun, Happ. split; [reflexivity|]. split; [reflexivity|]. simpl.
      unfold append_phase in Happ. rewrite (proj2 (Z.eqb_neq _ _) Hday) in Happ.
      pose proof (load_and_wait_cases bq batch (current_table p now) []) as Hcases.
      destruct (load_table_from_dataframe bq [] batch _) as [job|e1].
      * destruct (job_result bq _ job) as [[]|e2]; rewrite Hcases in Happ;
          [discriminate Happ|].
        injection Happ as _ <-. intros t o st Hin.
        apply elem_of_cons in Hin as [Hin|Hin]; [discriminate|].
        apply elem_of_cons in Hin as [Hin|Hin]; [discriminate|inversion Hin].
      * rewrite Hcases in Happ. injection Happ as _ <-. intros t o st Hin.
        apply elem_of_cons in Hin as [Hin|Hin]; [discriminate|inversion Hin].
    + destruct Hc as [[data Hd]|[job Hj]]; discriminate.
Qed.
End AppendClaims.

Lemma batch_appended_unless_guarded_or_caught_witness :
  (day april_first <> 1 ->
     match load_table_from_dataframe fertilizer_store_april_one [] fertilizer_batch
             (current_table Fertilizer april_first) with
     | Raise e =>
         @run ascii_runtime Fertilizer april_first one_page_web
           fertilizer_store_april_one 2
         = (Traceback e,
            [(LoadTable fertilizer_batch (current_table Fertilizer april_first),
              Some e)])
     | Ok job =>
         match job_result fertilizer_store_april_one
                 [(LoadTable fertilizer_batch (current_table Fertilizer april_first),
                   None)] job with
         | Raise e =>
             @run ascii_runtime Fertilizer april_first one_page_web
               fertilizer_store_april_one 2
             = (Traceback e,
                [(LoadTable fertilizer_batch (current_table Fertilizer april_first),
                  None);
                 (JobResult job, Some e)])
         | Ok _ =>
             reconciles_after Fertilizer april_first
               [(LoadTable fertilizer_batch (current_table Fertilizer april_first),
                 None);
                (JobResult job, None)]
               (@run ascii_runtime Fertilizer april_first one_page_web
                  fertilizer_store_april_one 2).2
         end
     end)
  /\ (day april_first = 1 -> Fertilizer = Fertilizer ->
        match query_count fertilizer_store_april_one []
                (current_table Fertilizer april_first)
                (month april_first) (year april_first) with
        | Ok cnt =>
            0 < cnt ->
            reconciles_after Fertilizer april_first
              [(QueryCount (current_table Fertilizer april_first)
                  (month april_first) (year april_first), None)]
              (@run ascii_runtime Fertilizer april_first one_page_web
                 fertilizer_store_april_one 2).2
        | Raise e =>
            e <> NotFound ->
            @run ascii_runtime Fertilizer april_first one_page_web
              fertilizer_store_april_one 2
            = (Traceback e,
               [(QueryCount (current_table Fertilizer april_first)
                   (month april_first) (year april_first), Some e)])
        end)
  /\ (day april_first = 1 ->
      forall h1, unguarded Fertilizer april_first fertilizer_store_april_one h1 ->
        match query_select fertilizer_store_april_one h1
                (prev_table Fertilizer april_first) (prev_ordering Fertilizer) with
        | Ok prev_data =>
            append_caught Fertilizer april_first fertilizer_store_april_one
              (concat prev_data fertilizer_batch)
              (h1 ++ [(QuerySelect (prev_table Fertilizer april_first)
                         (prev_ordering Fertilizer), None)])
              (@run ascii_runtime Fertilizer april_first one_page_web
                 fertilizer_store_april_one 2).2
        | Raise NotFound =>
            append_caught Fertilizer april_first fertilizer_store_april_one
              fertilizer_batch
              (h1 ++ [(QuerySelect (prev_table Fertilizer april_first)
                         (prev_ordering Fertilizer), Some NotFound)])
              (@run ascii_runtime Fertilizer april_first one_page_web
                 fertilizer_store_april_one 2).2
        | Raise e =>
            reconciles_after Fertilizer april_first
              (h1 ++ [(QuerySelect (prev_table Fertilizer april_first)
                         (prev_ordering Fertilizer), Some e)])
              (@run ascii_runtime Fertilizer april_first one_page_web
                 fertilizer_store_april_one 2).2
        end).
Proof.
  apply (@batch_appended_unless_guarded_or_caught ascii_runtime Fertilizer
           april_first one_page_web fertilizer_store_april_one 2 fertilizer_raw
           fertilizer_batch);
    vm_compute; reflexivity.
Defined.

(** C2, as stated, fails: on a first of April on which the fertilizer
    table of April already holds rows of April, the run has a normalised
    batch of three rows, counts, and goes straight to the read of the
    reconciliation pass; no load is ever issued. *)
Lemma guarded_first_of_month_appends_nothing :
  fetch 2 one_page_web (commodities Fertilizer) empty_frame = Some fertilizer_raw
  /\ @normalize ascii_runtime Fertilizer fertilizer_raw = Ok fertilizer_batch
  /\ length (rows fertilizer_batch) = 3%nat
  /\ @run ascii_runtime Fertilizer april_first one_page_web fertilizer_store_april 2
     = (Traceback BadRequest,
        [(QueryCount (current_table Fertilizer april_first) 4 2024, None);
         (QuerySelect (current_table Fertilizer april_first)
                      (OrderByDesc (str "start_date")), Some BadRequest)])
  /\ forall data t st,
       (LoadTable data t, st)
       ∉ (@run ascii_runtime Fertilizer april_first one_page_web
            fertilizer_store_april 2).2.
Proof.
  split; [vm_compute; reflexivity|]. split; [vm_compute; reflexivity|].
  split; [vm_compute; reflexivity|].
  assert (H : @run ascii_runtime Fertilizer april_first one_page_web fertilizer_store_april 2
     = (Traceback BadRequest,
        [(QueryCount (current_table Fertilizer april_first) 4 2024, None);
         (QuerySelect (current_table Fertilizer april_first)
                      (OrderByDesc (str "start_date")), Some BadRequest)]))
    by (vm_compute; reflexivity).
  split; [exact H|]. rewrite H. simpl. intros data t st Hin.
  apply elem_of_cons in Hin as [Hin|Hin]; [discriminate|].
  apply elem_of_cons in Hin as [Hin|Hin]; [discriminate|inversion Hin].
Qed.

Lemma append_failure_fatal_except_first_of_month_witness :
  (day march_seventh <> 1 ->
     @run ascii_runtime Livestock march_seventh one_page_web livestock_store_down 2
     = (Traceback GoogleAPIError,
        [(LoadTable livestock_batch (current_table Livestock march_seventh),
          Some GoogleAPIError)])
     /\ exit_status (@run ascii_runtime Livestock march_seventh one_page_web
                       livestock_store_down 2).1 = Some 1
     /\ forall t o st,
          (QuerySelect t o, st)
          ∉ (@run ascii_runtime Livestock march_seventh one_page_web
               livestock_store_down 2).2)
  /\ (day march_seventh = 1 ->
        Raised GoogleAPIError = Next tt
        /\ exists st post,
             (@run ascii_runtime Livestock march_seventh one_page_web
                livestock_store_down 2).2
             = [(LoadTable livestock_batch (current_table Livestock march_seventh),
                 Some GoogleAPIError)]
               ++ (QuerySelect (current_table Livestock march_seventh)
                               (reconcile_ordering Livestock), st) :: post).
Proof.
  apply (@append_failure_fatal_except_first_of_month ascii_runtime Livestock
           march_seventh one_page_web livestock_store_down 2 livestock_raw
           livestock_batch (Raised GoogleAPIError)
           [(LoadTable livestock_batch (current_table Livestock march_seventh),
             Some GoogleAPIError)]
           (LoadTable livestock_batch (current_table Livestock march_seventh))
           GoogleAPIError).
  - vm_compute. reflexivity.
  - vm_compute. reflexivity.
  - vm_compute. reflexivity.
  - vm_compute. reflexivity.
  - now exists [].
  - left. now exists livestock_batch.
Defined.

(** C3, as stated, fails: on a first of April the load of the livestock
    batch raises, the exception is caught, the run goes on with the read
    of the reconciliation pass, rebuilds the table from what it read and
    ends with status 0. *)
Lemma first_of_month_append_failure_not_fatal :
  @run ascii_runtime Livestock april_first one_page_web livestock_store_flaky 2
  = (Completed,
     [(QuerySelect (prev_table Livestock april_first) Unordered, Some NotFound);
      (LoadTable livestock_batch (current_table Livestock april_first),
       Some GoogleAPIError);
      (QuerySelect (current_table Livestock april_first) Unordered, None);
      (DeleteTable (current_table Livestock april_first), None);
      (CreateTable (current_table Livestock april_first) (schema Livestock), None);
      (LoadTable (Frame livestock_columns [stored_goat])
                 (current_table Livestock april_first), None);
      (JobReload 5, None)])
  /\ exit_status Completed = Some 0.
Proof. split; [vm_compute; reflexivity | reflexivity]. Qed.

(** ** The ordering of the full-table reads *)

(** C7.  The read of the reconciliation pass of fertilizer.py asks for an
    ordering by [start_date], a column that neither the batch loaded into
    the table nor the schema of the rebuilt table has, where the other
    ordered read of the script (the previous month) orders by [date]: on a
    seventh of March the batch is appended and the read is then refused. *)
Theorem fertilizer_reconcile_orders_by_start_date :
  reconcile_ordering Fertilizer = OrderByDesc (str "start_date")
  /\ prev_ordering Fertilizer = OrderByDesc (str "date")
  /\ str "start_date" <> str "date"
  /\ (str "start_date" ∉ map fst (schema Fertilizer))
  /\ (str "start_date" ∉ columns fertilizer_batch)
  /\ @run ascii_runtime Fertilizer march_seventh one_page_web fertilizer_store_march 2
     = (Traceback BadRequest,
        [(LoadTable fertilizer_batch (current_table Fertilizer march_seventh), None);
         (JobResult 0, None);
         (QuerySelect (current_table Fertilizer march_seventh)
                      (OrderByDesc (str "start_date")), Some BadRequest)]).
Proof.
  split; [reflexivity|]. split; [reflexivity|]. split; [discriminate|].
  split; [|split].
  - apply (proj1 (bool_decide_eq_false (str "start_date" ∈ map fst (schema Fertilizer)))).
    vm_compute. reflexivity.
  - apply (proj1 (bool_decide_eq_false (str "start_date" ∈ columns fertilizer_batch))).
    vm_compute. reflexivity.
  - vm_compute. reflexivity.
Qed.

(** ** The retry policy *)

Module TransportFacts.
Import Transport.

(** Without a [Retry-After] header a status is retried exactly when it
    is one of the five listed, and only for GET. *)
Lemma retried_statuses code :
  is_retry retries "GET" code false = true <-> code ∈ [429; 500; 502; 503; 504].
Proof.
  unfold is_retry, is_method_retryable.
  cbn [allowed_methods retries status_forcelist total].
  rewrite (bool_decide_eq_true_2 ("GET"%string ∈ ["GET"%string])) by (now left).
  rewrite andb_true_l, andb_false_r, andb_false_l, orb_false_r.
  apply bool_decide_eq_true.
Qed.

Lemma retried_methods method code has_retry_after :
  method <> "GET"%string -> is_retry retries method code has_retry_after = false.
Proof.
  intros Hm. unfold is_retry, is_method_retryable.
  cbn [allowed_methods retries].
  rewrite (bool_decide_eq_false_2 (method ∈ ["GET"%string])); [reflexivity|].
  intros Hin. apply elem_of_cons in Hin as [->|Hin]; [now apply Hm|inversion Hin].
Qed.

(** Whatever the server does, a request ends after at most one attempt
    more than [total]. *)
Lemma urlopen_bounded method server :
  forall fuel r k slept,
    0 <= total r ->
    (Z.to_nat (total r) + 2 <= fuel)%nat ->
    exists rep n sl,
      urlopen fuel method server k r slept = Some (rep, n, sl)
      /\ (n <= k + Z.to_nat (total r) + 1)%nat.
Proof.
  induction fuel as [|fuel IH]; intros r k slept Ht Hfuel; [lia|].
  assert (Hagain : forall retry_after,
    exists rep n sl,
      (if is_exhausted (increment r) then Some (MaxRetryError, S k, slept)
       else urlopen fuel method server (S k) (increment r)
              (slept ++ [sleep (increment r) retry_after]))
      = Some (rep, n, sl)
      /\ (n <= k + Z.to_nat (total r) + 1)%nat).
  { intros retry_after. unfold is_exhausted. simpl.
    destruct (total r - 1 <? 0) eqn:E.
    - exists MaxRetryError, (S k), slept. split; [reflexivity|lia].
    - apply Z.ltb_ge in E.
      destruct (IH (increment r) (S k) (slept ++ [sleep (increment r) retry_after]))
        as (rep & n & sl & Hu & Hn); simpl; [lia|lia|].
      exists rep, n, sl. split; [exact Hu|]. simpl in Hn. lia. }
  cbn [urlopen]. destruct (server k) as [| |code retry_after].
  - apply Hagain.
  - destruct (is_method_retryable r method); [apply Hagain|].
    exists Reraised, (S k), slept. split; [reflexivity|lia].
  - destruct (is_retry r method code _); [apply Hagain|].
    exists (Returned code), (S k), slept. split; [reflexivity|lia].
Qed.

(** C6.  With the [Retry] of the scripts a GET that is answered 503 every
    time is attempted six times, the first attempt and the five retries
    that [total=5] allows, and the waits between the attempts are 0, 4,
    8, 16 and 32 seconds; no request is attempted more than six times;
    the retried statuses are the five listed, only GET is retried and
    the time-out is 60 seconds. *)
Theorem retry_policy_attempts_and_backoff :
  urlopen 7 "GET" (fun _ => Status 503 None) 0 retries []
  = Some (MaxRetryError, 6%nat, [0; 4; 8; 16; 32])
  /\ (forall method server, exists rep n sl,
        urlopen 7 method server 0 retries [] = Some (rep, n, sl) /\ (n <= 6)%nat)
  /\ (forall code, is_retry retries "GET" code false = true
                   <-> code ∈ [429; 500; 502; 503; 504])
  /\ (forall method code has_retry_after,
        method <> "GET"%string -> is_retry retries method code has_retry_after = false)
  /\ timeout = 60.
Proof.
  split; [vm_compute; reflexivity|]. split; [|split; [|split]].
  - intros method server.
    destruct (urlopen_bounded method server 7 retries 0 []) as (rep & n & sl & Hu & Hn);
      [simpl; lia | simpl; lia |].
    exists rep, n, sl. split; [exact Hu|]. simpl in Hn. lia.
  - exact retried_statuses.
  - exact retried_methods.
  - reflexivity.
Qed.
End TransportFacts.


(** * Further properties of the scripts *)

(** ** Column names *)

(** X1. A cleaned column name consists of lower-case ASCII letters, ASCII
    digits and underscores only. *)
Theorem clean_name_alphabet {R : Runtime} {L : RuntimeLaws R} (s : text) :
  Forall (fun c => is_ascii_digit c || is_ascii_lower c || (c =? 95) = true)
         (clean_name s).
Proof.
  apply (Forall_impl _ _ _ (clean_name_canonical s)).
  intros c [Hw Hu]. unfold is_word in Hw. rewrite Hu in Hw.
  now rewrite orb_false_r in Hw.
Qed.

Lemma clean_name_alphabet_witness :
  Forall (fun c => is_ascii_digit c || is_ascii_lower c || (c =? 95) = true)
         (@clean_name ascii_runtime (str " Supply Volume (Kg)")).
Proof.
  exact (@clean_name_alphabet ascii_runtime ascii_runtime_laws
           (str " Supply Volume (Kg)")).
Defined.

Lemma lstrip_app_spaces pre s :
  Forall (fun c => is_space c = true) pre -> lstrip (pre ++ s) = lstrip s.
Proof.
  induction 1 as [|c pre Hc _ IH]; [reflexivity|]. simpl. now rewrite Hc.
Qed.

Lemma lstrip_app_blank_tail s post :
  Forall (fun c => is_space c = true) post ->
  (lstrip s = [] /\ lstrip (s ++ post) = [])
  \/ (lstrip s <> [] /\ lstrip (s ++ post) = lstrip s ++ post).
Proof.
  intros Hpost. induction s as [|c s IH]; simpl.
  - left. split; [reflexivity|].
    rewrite <- (app_nil_r post). now rewrite lstrip_app_spaces.
  - destruct (is_space c); [exact IH|]. right. now split.
Qed.

Lemma strip_outer_spaces pre s post :
  Forall (fun c => is_space c = true) pre ->
  Forall (fun c => is_space c = true) post ->
  strip (pre ++ s ++ post) = strip s.
Proof.
  intros Hpre Hpost. unfold strip. rewrite (lstrip_app_spaces pre _ Hpre).
  destruct (lstrip_app_blank_tail s post Hpost) as [[Hs ->]|[Hs ->]].
  - now rewrite Hs.
  - rewrite rev_app_distr. rewrite lstrip_app_spaces; [reflexivity|].
    now apply Forall_rev.
Qed.

(** X2. White space around a raw column name does not matter: the name
    cleans to the same label with or without it. *)
Theorem clean_name_ignores_outer_spaces {R : Runtime} (pre s post : text) :
  Forall (fun c => is_space c = true) pre ->
  Forall (fun c => is_space c = true) post ->
  clean_name (pre ++ s ++ post) = clean_name s.
Proof.
  intros Hpre Hpost. unfold clean_name.
  now rewrite (strip_outer_spaces pre s post Hpre Hpost).
Qed.

Lemma clean_name_ignores_outer_spaces_witness :
  @clean_name ascii_runtime (str "  " ++ str "Supply Volume" ++ [9; 160])
  = @clean_name ascii_runtime (str "Supply Volume").
Proof.
  apply (@clean_name_ignores_outer_spaces ascii_runtime).
  - repeat constructor.
  - repeat constructor.
Defined.

(** ** Price extraction *)

Section ExtractionMore.
Context {R : Runtime}.

Lemma search_skips_non_digits pre s :
  Forall (fun c => is_digit c = false) pre -> search (pre ++ s) = search s.
Proof.
  induction 1 as [|c pre Hc _ IH]; [reflexivity|].
  simpl. unfold match_here at 1. simpl. now rewrite Hc.
Qed.

Lemma search_no_digit s :
  Forall (fun c => is_digit c = false) s -> search s = None.
Proof.
  induction 1 as [|c s Hc _ IH]; [reflexivity|].
  simpl. unfold match_here at 1. simpl. now rewrite Hc.
Qed.

Lemma ascii_digit_is_digit c : is_ascii_digit c = true -> is_digit c = true.
Proof.
  intros Hc. unfold is_digit. rewrite Hc.
  destruct (c <? 128) eqn:E; [reflexivity|]. bool_to_Z; lia.
Qed.

Lemma span_digits_run ds rest :
  forallb is_ascii_digit ds = true ->
  (rest = [] \/ exists c r, rest = c :: r /\ is_digit c = false) ->
  span_digits (ds ++ rest) = (ds, rest).
Proof.
  intros Hds Hrest. induction ds as [|d ds IH]; simpl in *.
  - destruct Hrest as [->|(c & r & -> & Hc)]; [reflexivity|]. simpl. now rewrite Hc.
  - apply andb_true_iff in Hds as [Hd Hds].
    rewrite (ascii_digit_is_digit d Hd), (IH Hds). reflexivity.
Qed.
End ExtractionMore.

Lemma parse_decimal_digits ds :
  ds <> [] -> forallb is_ascii_digit ds = true ->
  parse_decimal ds = Some (Q2Qc (inject_Z (digits_val ds))).
Proof.
  intros Hne Hds. unfold parse_decimal.
  match goal with |- context [let '(ip, fp) := ?f ds in _] => set (split := f) end.
  assert (Hsplit : forall l, forallb is_ascii_digit l = true -> split l = (l, None)).
  { induction l as [|c l IH]; [reflexivity|]. simpl. intros Hl.
    apply andb_true_iff in Hl as [Hc Hl]. rewrite (IH Hl).
    destruct (c =? 46) eqn:E; [bool_to_Z; lia | reflexivity]. }
  rewrite (Hsplit ds Hds). simpl. rewrite Hds, app_nil_r.
  now rewrite bool_decide_eq_true_2 by exact Hne.
Qed.

(** The integer a run of ASCII digits spells is bounded by its length:
    at most fifteen digits stay below 2^53, the integers a binary64 float
    holds exactly. *)
Lemma digits_val_bound ds :
  forallb is_ascii_digit ds = true ->
  forall acc, 0 <= acc ->
  0 <= fold_left (fun acc c => 10 * acc + (c - 48)) ds acc
    < (acc + 1) * 10 ^ Z.of_nat (length ds).
Proof.
  induction ds as [|d ds IH]; intros Hds acc Hacc.
  - simpl. lia.
  - simpl in Hds. apply andb_true_iff in Hds as [Hd Hds].
    unfold is_ascii_digit in Hd. bool_to_Z.
    cbn [fold_left length]. rewrite Nat2Z.inj_succ, Z.pow_succ_r by lia.
    specialize (IH Hds (10 * acc + (d - 48)) ltac:(lia)).
    assert (0 < 10 ^ Z.of_nat (length ds)) by (apply Z.pow_pos_nonneg; lia).
    nia.
Qed.

Lemma digits_val_exact ds :
  (length ds <= 15)%nat -> forallb is_ascii_digit ds = true ->
  0 <= digits_val ds < 2 ^ 53.
Proof.
  intros Hlen Hds. unfold digits_val.
  pose proof (digits_val_bound ds Hds 0 ltac:(lia)) as [H0 H1].
  split; [exact H0|].
  assert (10 ^ Z.of_nat (length ds) <= 10 ^ 15)
    by (apply Z.pow_le_mono_r; lia).
  assert (10 ^ 15 < 2 ^ 53) by (vm_compute; reflexivity).
  lia.
Qed.

(** X3. A price cell that holds no digit becomes null. *)
Theorem price_without_digit_is_null {R : Runtime} (s : text) :
  Forall (fun c => is_digit c = false) s ->
  to_numeric (extract (Text s)) = NaN.
Proof. intros Hs. simpl. now rewrite (search_no_digit s Hs). Qed.

Lemma price_without_digit_is_null_witness :
  to_numeric (@extract ascii_runtime (Text (str "- n/a -"))) = NaN.
Proof.
  apply (@price_without_digit_is_null ascii_runtime).
  repeat constructor.
Defined.

(** X4. When the first digits of a price cell are at most fifteen ASCII
    digits that are not followed by a point or by another digit, the
    extracted value is the integer they spell, whatever stands before them
    (a currency, a sign) and after them.  Fifteen digits spell an integer
    below 2^53, which [pd.to_numeric] holds exactly whether it returns an
    int64 or a float64 column; longer runs are rounded, or overflow, and
    are left out. *)
Theorem price_is_first_integer {R : Runtime} (pre ds rest : text) :
  Forall (fun c => is_digit c = false) pre ->
  ds <> [] ->
  (length ds <= 15)%nat ->
  forallb is_ascii_digit ds = true ->
  (rest = [] \/ exists c r, rest = c :: r /\ is_digit c = false /\ c <> 46) ->
  to_numeric (extract (Text (pre ++ ds ++ rest)))
  = Num (Q2Qc (inject_Z (digits_val ds)))
  /\ 0 <= digits_val ds < 2 ^ 53.
Proof.
  intros Hpre Hne Hlen Hds Hrest. split; [|exact (digits_val_exact ds Hlen Hds)].
  simpl. rewrite (search_skips_non_digits pre _ Hpre).
  assert (Hm : match_here (ds ++ rest) = Some ds).
  { unfold match_here. rewrite (span_digits_run ds rest Hds).
    - destruct ds as [|d ds]; [contradiction|].
      destruct Hrest as [->|(c & r & -> & _ & Hc)]; [reflexivity|].
      now rewrite (proj2 (Z.eqb_neq c 46) Hc).
    - destruct Hrest as [->|(c & r & -> & Hc & _)]; [now left | right; eauto]. }
  destruct ds as [|d ds]; [contradiction|].
  change (search ((d :: ds) ++ rest)) with
    (match match_here ((d :: ds) ++ rest) with
     | Some m => Some m
     | None => search (ds ++ rest)
     end).
  rewrite Hm. simpl to_numeric. now rewrite (parse_decimal_digits (d :: ds) Hne Hds).
Qed.

Lemma price_is_first_integer_witness :
  to_numeric (@extract ascii_runtime (Text (str "Kshs -" ++ str "3500" ++ str "/bag")))
  = Num (Q2Qc (inject_Z (digits_val (str "3500"))))
  /\ 0 <= digits_val (str "3500") < 2 ^ 53.
Proof.
  apply (@price_is_first_integer ascii_runtime).
  - repeat constructor.
  - discriminate.
  - simpl. lia.
  - reflexivity.
  - right. exists 47, (str "bag"). repeat split. discriminate.
Defined.

(** ** Frames *)

(** X5. On well-formed frames [pd.concat] does what the pagination needs:
    the first page joined to the empty frame is the page itself, and a
    page with the header of the frame accumulated so far adds its rows
    after those of the frame, unchanged. *)
Theorem concat_appends_rows (b : frame) :
  well_formed b ->
  concat empty_frame b = b
  /\ forall a, well_formed a -> columns a = columns b ->
       concat a b = Frame (columns a) (rows a ++ rows b).
Proof.
  intros Hb. split.
  - unfold concat. change (columns empty_frame) with (@nil (list Z)).
    rewrite app_nil_l, filter_all_fresh.
    change (reindex (columns b) empty_frame) with (@nil (list cell)).
    cbn [app]. rewrite (reindex_well_formed b Hb). now destruct b.
  - intros a Ha Hcols. unfold concat. rewrite <- Hcols, filter_none_fresh, app_nil_r.
    rewrite (reindex_well_formed a Ha). rewrite Hcols at 2.
    now rewrite (reindex_well_formed b Hb).
Qed.

Lemma sample_page_well_formed : well_formed sample_page.
Proof.
  split.
  - apply (bool_decide_unpack (NoDup (columns sample_page))). vm_compute. exact I.
  - repeat constructor.
Qed.

Lemma concat_appends_rows_witness :
  concat empty_frame sample_page = sample_page
  /\ forall a, well_formed a -> columns a = columns sample_page ->
       concat a sample_page = Frame (columns a) (rows a ++ rows sample_page).
Proof. exact (concat_appends_rows sample_page sample_page_well_formed). Defined.

(** ** De-duplication, again *)

Section DedupMore.
Variable key : list cell -> list cell.

Local Abbreviation kept seen rs :=
  (filter (fun rm : list cell * bool => rm.2 = false)
          (zip rs (duplicated_mask seen (map key rs)))).*1.

(** Rows whose keys are pairwise distinct and not yet seen are all kept. *)
Lemma kept_distinct rs :
  forall seen,
    NoDup (map key rs) -> (forall r, r ∈ rs -> key r ∉ seen) -> kept seen rs = rs.
Proof.
  induction rs as [|r rs IH]; intros seen Hnd Hseen; [reflexivity|].
  simpl in Hnd. apply NoDup_cons in Hnd as [Hr Hnd].
  rewrite (kept_cons_fresh key) by (apply Hseen; now left).
  f_equal. apply IH; [exact Hnd|].
  intros r' Hr' Hin. apply elem_of_cons in Hin as [Heq|Hin].
  - apply Hr. rewrite <- Heq. apply list_elem_of_In, in_map, list_elem_of_In, Hr'.
  - apply (Hseen r'); [now right | exact Hin].
Qed.
End DedupMore.

(** X6. De-duplicating twice is de-duplicating once: the frame that
    [drop_duplicates] returns is left as it is by a second pass. *)
Theorem drop_duplicates_idempotent (subset : list text) (data data' : frame) :
  drop_duplicates subset data = Ok data' ->
  drop_duplicates subset data' = Ok data'.
Proof.
  unfold drop_duplicates, duplicated.
  destruct (decide _) as [Hcols|]; [|discriminate]. simpl. intros [= <-]. simpl.
  rewrite decide_True by exact Hcols. simpl. f_equal. f_equal.
  apply (kept_distinct (row_key (columns data) subset)).
  - apply kept_NoDup.
  - intros r _ Hin. inversion Hin.
Qed.

Lemma drop_duplicates_idempotent_witness :
  drop_duplicates (dedup_subset Fertilizer) deduplicated = Ok deduplicated.
Proof.
  apply (drop_duplicates_idempotent (dedup_subset Fertilizer) read_back deduplicated).
  vm_compute. reflexivity.
Defined.

(** X7. A frame that has the key columns and no two rows with the same key
    comes out of [drop_duplicates] unchanged. *)
Theorem drop_duplicates_distinct_keys (subset : list text) (data : frame) :
  Forall (fun l => l ∈ columns data) subset ->
  NoDup (map (row_key (columns data) subset) (rows data)) ->
  drop_duplicates subset data = Ok data.
Proof.
  intros Hcols Hnd. unfold drop_duplicates, duplicated.
  rewrite decide_True by exact Hcols. simpl.
  rewrite (kept_distinct (row_key (columns data) subset) (rows data) [] Hnd).
  - now destruct data.
  - intros r _ Hin. inversion Hin.
Qed.

Lemma drop_duplicates_distinct_keys_witness :
  drop_duplicates (dedup_subset Fertilizer) deduplicated = Ok deduplicated.
Proof.
  apply (drop_duplicates_distinct_keys (dedup_subset Fertilizer) deduplicated).
  - apply (bool_decide_unpack
             (Forall (fun l => l ∈ columns deduplicated) (dedup_subset Fertilizer))).
    vm_compute. exact I.
  - apply (bool_decide_unpack
             (NoDup (map (row_key (columns deduplicated) (dedup_subset Fertilizer))
                         (rows deduplicated)))).
    vm_compute. exact I.
Defined.

(** ** Normalizer *)

Lemma positions_ge name cols :
  forall k i, i ∈ positions name cols k -> (k <= i)%nat.
Proof.
  induction cols as [|c cols IH]; intros k i Hi; [inversion Hi|].
  simpl in Hi. destruct (decide (c = name)).
  - apply elem_of_cons in Hi as [->|Hi]; [lia|]. apply IH in Hi. lia.
  - apply IH in Hi. lia.
Qed.

Lemma positions_head_label name cols :
  forall k i l, positions name cols k = i :: l -> cols !! (i - k)%nat = Some name.
Proof.
  induction cols as [|c cols IH]; intros k i l Hp; [discriminate|].
  simpl in Hp. destruct (decide (c = name)) as [->|Hne].
  - injection Hp as <- _. now rewrite Nat.sub_diag.
  - assert (Hge : (S k <= i)%nat).
    { apply (positions_ge name cols). rewrite Hp. now left. }
    apply IH in Hp. replace (i - k)%nat with (S (i - S k)) by lia. exact Hp.
Qed.

Lemma lookup_cell_find name cols :
  forall k r,
    match positions name cols k with
    | i :: _ => cell_at (i - k) r
    | [] => NaN
    end = find_cell name cols r.
Proof.
  induction cols as [|c cols IH]; intros k r; [now destruct r|].
  simpl. destruct (decide (c = name)) as [->|Hne].
  - rewrite Nat.sub_diag. now destruct r.
  - destruct r as [|v r].
    + now destruct (positions name cols (S k)).
    + rewrite <- (IH (S k) r).
      destruct (positions name cols (S k)) as [|i l] eqn:Hp; [reflexivity|].
      assert (Hge : (S k <= i)%nat).
      { apply (positions_ge name cols). rewrite Hp. now left. }
      replace (i - k)%nat with (S (i - S k)) by lia. reflexivity.
Qed.

Lemma lookup_cell_is_find name cols r :
  lookup_cell cols name r = find_cell name cols r.
Proof.
  unfold lookup_cell. rewrite <- (lookup_cell_find name cols 0 r).
  destruct (positions name cols 0); [reflexivity|]. now rewrite Nat.sub_0_r.
Qed.

(** Dropping columns leaves the values under the other labels alone. *)
Lemma find_cell_pruned (name : text) (labels cols : list text) :
  name ∉ labels ->
  forall r,
    find_cell name (filter (fun c => c ∉ labels) cols)
      (filter (fun cv : cell * bool => cv.2 = true)
              (zip r (map (fun c => bool_decide (c ∉ labels)) cols))).*1
    = find_cell name cols r.
Proof.
  intros Hname. induction cols as [|c cols IH]; intros r.
  - now destruct r.
  - destruct r as [|v r]; simpl.
    + now destruct (filter _ (c :: cols)).
    + destruct (decide (c ∈ labels)) as [Hin|Hin].
      * rewrite filter_cons_False by (intros Hn; now apply Hn).
        rewrite bool_decide_eq_false_2 by (intros Hn; now apply Hn).
        rewrite filter_cons_False by discriminate.
        rewrite decide_False by (intros ->; contradiction). apply IH.
      * rewrite filter_cons_True by exact Hin.
        rewrite bool_decide_eq_true_2 by exact Hin.
        rewrite filter_cons_True by reflexivity. simpl.
        destruct (decide (c = name)); [reflexivity | apply IH].
Qed.

Lemma setitem_rows_length i values f f' :
  setitem i values f = Ok f' -> length (rows f') = length (rows f).
Proof.
  unfold setitem. destruct (decide _) as [Hlen|]; [|discriminate].
  intros [= <-]. simpl. apply length_zip_with_l_eq. now symmetry.
Qed.

Lemma setitem_cell_set (P : cell -> Prop) i values f f' :
  setitem i values f = Ok f' -> P NaN -> Forall P values ->
  Forall (fun r => P (cell_at i r)) (rows f').
Proof.
  unfold setitem. destruct (decide _); [|discriminate]. intros [= <-] Hnan Hvs.
  simpl. apply Forall_lookup. intros n r' Hn.
  apply lookup_zip_with_Some in Hn as (r & v & -> & _ & Hv).
  unfold cell_at. destruct (decide (i < length r)%nat) as [Hlt|Hge].
  - rewrite list_lookup_insert_eq by exact Hlt. simpl.
    eapply Forall_lookup_1; [exact Hvs | exact Hv].
  - rewrite list_insert_ge by lia. rewrite (proj2 (lookup_ge_None r i)) by lia.
    exact Hnan.
Qed.

Lemma setitem_cell_kept (P : cell -> Prop) i j values f f' :
  setitem i values f = Ok f' -> i <> j ->
  Forall (fun r => P (cell_at j r)) (rows f) ->
  Forall (fun r => P (cell_at j r)) (rows f').
Proof.
  unfold setitem. destruct (decide _); [|discriminate]. intros [= <-] Hij Hrows.
  simpl. apply Forall_lookup. intros n r' Hn.
  apply lookup_zip_with_Some in Hn as (r & v & -> & Hr & _).
  unfold cell_at. rewrite list_lookup_insert_ne by exact Hij.
  exact (Forall_lookup_1 _ _ _ _ Hrows Hr).
Qed.

Section NormalizerFacts.
Context {R : Runtime}.

Lemma to_datetime_dates values :
  forall ds, to_datetime values = Ok ds -> Forall null_or_date ds.
Proof.
  induction values as [|v values IH]; simpl; intros ds Hds.
  - injection Hds as <-. constructor.
  - destruct (to_datetime values) as [ds'|e].
    + assert (Hv : forall c, null_or_date c -> Ok (c :: ds') = Ok ds -> Forall null_or_date ds).
      { intros c Hc [= <-]. constructor; [exact Hc | now apply IH]. }
      destruct v as [|s|q|y m d]; simpl in Hds.
      * apply (Hv NaN); [now left | exact Hds].
      * destruct (parse_date s) as [[[y m] d]|]; [|discriminate].
        apply (Hv (Date y m d)); [right; eauto | exact Hds].
      * destruct (date_of_number q) as [[[y m] d]|]; [|discriminate].
        apply (Hv (Date y m d)); [right; eauto | exact Hds].
      * apply (Hv (Date y m d)); [right; eauto | exact Hds].
    + destruct v as [|s|q|y m d]; simpl in Hds; try discriminate.
      * destruct (parse_date s) as [[[y m] d]|]; discriminate.
      * destruct (date_of_number q) as [[[y m] d]|]; discriminate.
Qed.

Lemma extracted_prices values :
  Forall null_or_price (map (fun c => to_numeric (extract c)) values).
Proof.
  induction values as [|v values IH]; simpl; constructor; [|exact IH].
  destruct v as [|s| |]; simpl; try (now left).
  destruct (search s) as [m|]; simpl; [|now left].
  destruct (parse_decimal m) as [q|] eqn:Hq; [|now left].
  right. exists q. split; [reflexivity | exact (parse_decimal_nonneg m q Hq)].
Qed.

Lemma standardize_date_spec f f' :
  standardize_date f = Ok f' ->
  exists d values,
    positions (str "date") (columns f) 0 = [d]
    /\ Forall null_or_date values
    /\ setitem d values f = Ok f'.
Proof.
  unfold standardize_date, getitem.
  destruct (positions _ (columns f) 0) as [|d [|? ?]] eqn:Hp; simpl; try discriminate.
  destruct (to_datetime _) as [ds|] eqn:Hds; simpl; [|discriminate].
  intros Hset. exists d, ds. split; [reflexivity|]. split; [|exact Hset].
  exact (to_datetime_dates _ _ Hds).
Qed.

Lemma standardize_price_spec name f f' :
  standardize_price name f = Ok f' ->
  exists i values,
    positions name (columns f) 0 = [i]
    /\ Forall null_or_price values
    /\ setitem i values f = Ok f'.
Proof.
  unfold standardize_price, getitem.
  destruct (positions _ (columns f) 0) as [|i [|? ?]] eqn:Hp; simpl; try discriminate.
  unfold str_accessor. destruct (existsb _ _); simpl; [|discriminate].
  intros Hset. eexists i, _. split; [reflexivity|]. split; [|exact Hset].
  apply extracted_prices.
Qed.

(** X8. The normalisation keeps every row: the batch has as many rows as
    the fetched frame, under the cleaned labels, without [grade] and [sex]
    in fertilizer.py. *)
Theorem normalize_keeps_rows (p : pipeline) (bigdata batch : frame) :
  normalize p bigdata = Ok batch ->
  length (rows batch) = length (rows bigdata)
  /\ columns batch
     = match p with
       | Fertilizer =>
           filter (fun c => c ∉ [str "grade"; str "sex"])
                  (map clean_name (columns bigdata))
       | Livestock => map clean_name (columns bigdata)
       end.
Proof.
  unfold normalize.
  destruct (standardize_date _) as [f1|] eqn:E1; simpl; [|discriminate].
  destruct (standardize_price _ f1) as [f2|] eqn:E2; simpl; [|discriminate].
  destruct (standardize_price _ f2) as [f3|] eqn:E3; simpl; [|discriminate].
  assert (Hrows : length (rows f3) = length (rows bigdata)).
  { destruct (standardize_date_spec _ _ E1) as (? & ? & _ & _ & S1).
    destruct (standardize_price_spec _ _ _ E2) as (? & ? & _ & _ & S2).
    destruct (standardize_price_spec _ _ _ E3) as (? & ? & _ & _ & S3).
    rewrite (setitem_rows_length _ _ _ _ S3), (setitem_rows_length _ _ _ _ S2).
    now rewrite (setitem_rows_length _ _ _ _ S1). }
  assert (Hcols : columns f3 = map clean_name (columns bigdata)).
  { rewrite (standardize_price_columns _ _ _ E3), (standardize_price_columns _ _ _ E2).
    now rewrite (standardize_date_columns _ _ E1). }
  destruct p.
  - unfold drop_columns. destruct (decide _); [|discriminate]. intros [= <-]. simpl.
    rewrite length_map, Hcols. now split.
  - intros [= <-]. now split.
Qed.
End NormalizerFacts.

Lemma normalize_keeps_rows_witness :
  length (rows fertilizer_batch) = length (rows fertilizer_raw)
  /\ columns fertilizer_batch
     = filter (fun c => c ∉ [str "grade"; str "sex"])
              (map (@clean_name ascii_runtime) (columns fertilizer_raw)).
Proof.
  apply (@normalize_keeps_rows ascii_runtime Fertilizer fertilizer_raw fertilizer_batch).
  vm_compute. reflexivity.
Defined.

Section NormalizerClaims.
Context {R : Runtime}.

Lemma getitem_missing name f :
  name ∉ columns f -> getitem name f = Raise KeyError.
Proof. intros Hn. unfold getitem. now rewrite positions_not_in. Qed.

Lemma normalize_missing_column p bigdata :
  str "date" ∉ map clean_name (columns bigdata)
  \/ str "wholesale" ∉ map clean_name (columns bigdata)
  \/ str "retail" ∉ map clean_name (columns bigdata) ->
  exists e, normalize p bigdata = Raise e
            /\ (str "date" ∉ map clean_name (columns bigdata) -> e = KeyError).
Proof.
  intros Hmiss. unfold normalize.
  destruct (standardize_date _) as [f1|e] eqn:E1; simpl.
  - assert (Hdate : ~ (str "date" ∉ map clean_name (columns bigdata))).
    { intros Hn. unfold standardize_date in E1.
      rewrite getitem_missing in E1 by exact Hn. discriminate. }
    destruct (standardize_price _ f1) as [f2|e] eqn:E2; simpl;
      [|exists e; split; [reflexivity | intros Hn; contradiction]].
    destruct (standardize_price _ f2) as [f3|e] eqn:E3; simpl;
      [|exists e; split; [reflexivity | intros Hn; contradiction]].
    exfalso. destruct Hmiss as [Hn|[Hn|Hn]]; [contradiction| |].
    + unfold standardize_price in E2. rewrite getitem_missing in E2; [discriminate|].
      now rewrite (standardize_date_columns _ _ E1).
    + unfold standardize_price in E3. rewrite getitem_missing in E3; [discriminate|].
      now rewrite (standardize_price_columns _ _ _ E2), (standardize_date_columns _ _ E1).
  - exists e. split; [reflexivity|]. intros Hn. unfold standardize_date in E1.
    rewrite getitem_missing in E1 by exact Hn. simpl in E1. congruence.
Qed.

(** X9. In both scripts a non-empty fetched frame without a column that
    cleans to [date], [wholesale] or [retail] ends the run in an uncaught
    exception before any call on the store.  Which exception it is depends
    on the labels: with string labels and no [date] it is the [KeyError]
    of line 94 (97 in livestock.py), on a table without header (integer
    labels) the [.str] accessor of line 85 (88) raises before that; the
    statement covers both by leaving the exception open. *)
Theorem run_without_required_column (p : pipeline) (now : datetime) (w : web)
    (bq : client) (fuel : nat) (bigdata : frame) :
  fetch fuel w (commodities p) empty_frame = Some bigdata ->
  empty bigdata = false ->
  str "date" ∉ map clean_name (columns bigdata)
  \/ str "wholesale" ∉ map clean_name (columns bigdata)
  \/ str "retail" ∉ map clean_name (columns bigdata) ->
  exists e, run p now w bq fuel = (Traceback e, []).
Proof.
  intros Hfetch Hne Hmiss.
  destruct (normalize_missing_column p bigdata Hmiss) as (e & He & _).
  exists e. unfold run, process. now rewrite Hfetch, Hne, He.
Qed.

(** X10. In the normalised batch every row has, under [date], nothing or
    a date and, under [wholesale] and under [retail], nothing or a number
    that is not negative. *)
Theorem normalized_batch_is_typed (p : pipeline) (bigdata batch : frame)
    (r : list cell) :
  normalize p bigdata = Ok batch ->
  r ∈ rows batch ->
  null_or_date (lookup_cell (columns batch) (str "date") r)
  /\ null_or_price (lookup_cell (columns batch) (str "wholesale") r)
  /\ null_or_price (lookup_cell (columns batch) (str "retail") r).
Proof.
  unfold normalize.
  destruct (standardize_date _) as [f1|] eqn:E1; simpl; [|discriminate].
  destruct (standardize_price _ f1) as [f2|] eqn:E2; simpl; [|discriminate].
  destruct (standardize_price _ f2) as [f3|] eqn:E3; simpl; [|discriminate].
  destruct (standardize_date_spec _ _ E1) as (d & vd & Pd & Vd & S1).
  destruct (standardize_price_spec _ _ _ E2) as (i & vi & Pi & Vi & S2).
  destruct (standardize_price_spec _ _ _ E3) as (j & vj & Pj & Vj & S3).
  pose proof (setitem_columns _ _ _ _ S1) as C1. simpl in C1, Pd.
  pose proof (setitem_columns _ _ _ _ S2) as C2.
  pose proof (setitem_columns _ _ _ _ S3) as C3.
  rewrite C1 in Pi. rewrite C2, C1 in Pj.
  set (cols := map clean_name (columns bigdata)) in *.
  assert (Hdi : d <> i).
  { intros ->. apply positions_head_label in Pd, Pi. rewrite Pd in Pi. discriminate. }
  assert (Hdj : d <> j).
  { intros ->. apply positions_head_label in Pd, Pj. rewrite Pd in Pj. discriminate. }
  assert (Hij : i <> j).
  { intros ->. apply positions_head_label in Pi, Pj. rewrite Pi in Pj. discriminate. }
  assert (Hnan_d : null_or_date NaN) by now left.
  assert (Hnan_p : null_or_price NaN) by now left.
  assert (Hd : Forall (fun r => null_or_date (cell_at d r)) (rows f3)).
  { apply (setitem_cell_kept _ _ _ _ _ _ S3 (not_eq_sym Hdj)).
    apply (setitem_cell_kept _ _ _ _ _ _ S2 (not_eq_sym Hdi)).
    exact (setitem_cell_set _ _ _ _ _ S1 Hnan_d Vd). }
  assert (Hi : Forall (fun r => null_or_price (cell_at i r)) (rows f3)).
  { apply (setitem_cell_kept _ _ _ _ _ _ S3 (not_eq_sym Hij)).
    exact (setitem_cell_set _ _ _ _ _ S2 Hnan_p Vi). }
  assert (Hj : Forall (fun r => null_or_price (cell_at j r)) (rows f3))
    by exact (setitem_cell_set _ _ _ _ _ S3 Hnan_p Vj).
  assert (Hf3 : forall r0, r0 ∈ rows f3 ->
    null_or_date (lookup_cell cols (str "date") r0)
    /\ null_or_price (lookup_cell cols (str "wholesale") r0)
    /\ null_or_price (lookup_cell cols (str "retail") r0)).
  { intros r0 Hr0. unfold lookup_cell. rewrite Pd, Pi, Pj.
    rewrite Forall_forall in Hd, Hi, Hj. auto. }
  destruct p.
  - unfold drop_columns. destruct (decide _); [|discriminate]. intros [= <-]. simpl.
    rewrite C3, C2, C1. fold cols. intros Hr.
    apply list_elem_of_In, in_map_iff in Hr as (r0 & <- & Hr0).
    apply list_elem_of_In in Hr0.
    rewrite !lookup_cell_is_find, !find_cell_pruned, <- !lookup_cell_is_find;
      [exact (Hf3 r0 Hr0) | | |];
      apply (bool_decide_unpack (_ ∉ [str "grade"; str "sex"])); vm_compute; exact I.
  - intros [= <-]. rewrite C3, C2, C1. fold cols. apply Hf3.
Qed.
End NormalizerClaims.

Lemma run_without_required_column_witness :
  exists e, @run ascii_runtime Livestock march_seventh dateless_web livestock_store 2
            = (Traceback e, []).
Proof.
  apply (@run_without_required_column ascii_runtime Livestock march_seventh
           dateless_web livestock_store 2
           (fold_left concat (replicate 5 dateless_page) empty_frame)).
  - vm_compute. reflexivity.
  - vm_compute. reflexivity.
  - left. apply (bool_decide_unpack (_ ∉ _)). vm_compute. exact I.
Defined.

Lemma normalized_batch_is_typed_witness :
  null_or_date (lookup_cell (columns fertilizer_batch) (str "date")
                  (default [] (head (rows fertilizer_batch))))
  /\ null_or_price (lookup_cell (columns fertilizer_batch) (str "wholesale")
                      (default [] (head (rows fertilizer_batch))))
  /\ null_or_price (lookup_cell (columns fertilizer_batch) (str "retail")
                      (default [] (head (rows fertilizer_batch)))).
Proof.
  apply (@normalized_batch_is_typed ascii_runtime Fertilizer fertilizer_raw
           fertilizer_batch).
  - vm_compute. reflexivity.
  - apply (bool_decide_unpack (_ ∈ _)). vm_compute. exact I.
Defined.

(** ** PagedFetcher, again *)

Lemma paginate_endless w commodity :
  (forall offset, exists page rest, w commodity offset = Html (page :: rest)) ->
  forall fuel offset bigdata, paginate fuel w commodity offset bigdata = None.
Proof.
  intros Hpages. induction fuel as [|fuel IH]; intros offset bigdata; [reflexivity|].
  simpl. unfold get_page. destruct (Hpages offset) as (page & rest & ->). simpl.
  apply IH.
Qed.

(** X11. The pagination has no last page: when the site answers every
    request for the first commodity with a table, the loop is still running
    after any number of pages, and the run ends neither with an exit status
    nor with a call on the store. *)
Theorem pagination_without_failure_never_ends {R : Runtime} (p : pipeline)
    (now : datetime) (w : web) (bq : client) (commodity : Z) (items : list Z) :
  commodities p = commodity :: items ->
  (forall offset, exists page rest, w commodity offset = Html (page :: rest)) ->
  forall fuel,
    paginate fuel w commodity 0 empty_frame = None
    /\ run p now w bq fuel = (Unfinished, [])
    /\ exit_status (run p now w bq fuel).1 = None.
Proof.
  intros Hitems Hpages fuel.
  pose proof (paginate_endless w commodity Hpages fuel 0 empty_frame) as Hp.
  split; [exact Hp|]. unfold run. rewrite Hitems. simpl. rewrite Hp. now split.
Qed.

Lemma pagination_without_failure_never_ends_witness :
  paginate 100 endless_web 217 0 empty_frame = None
  /\ @run ascii_runtime Fertilizer march_seventh endless_web fertilizer_store_march 100
     = (Unfinished, [])
  /\ exit_status (@run ascii_runtime Fertilizer march_seventh endless_web
                    fertilizer_store_march 100).1 = None.
Proof.
  apply (@pagination_without_failure_never_ends ascii_runtime Fertilizer
           march_seventh endless_web fertilizer_store_march 217 []).
  - reflexivity.
  - intros offset. now exists sample_page, [].
Defined.

(** X12. The fetch visits the commodities in the order of the list and,
    for each, takes its pages up to the first failure: the frame it
    returns is the concatenation of all those pages, commodity after
    commodity, page after page. *)
Theorem fetch_concatenates_all_pages (w : web) (pages_of : Z -> list frame)
    (fuel : nat) (items : list Z) (bigdata : frame) :
  (forall commodity, commodity ∈ items ->
     (forall i page, pages_of commodity !! i = Some page ->
        exists rest, w commodity (3000 * Z.of_nat i) = Html (page :: rest))
     /\ (w commodity (3000 * Z.of_nat (length (pages_of commodity))) = RequestFailed
         \/ w commodity (3000 * Z.of_nat (length (pages_of commodity))) = Html [])
     /\ (length (pages_of commodity) < fuel)%nat) ->
  fetch fuel w items bigdata
  = Some (fold_left concat (flat_map pages_of items) bigdata).
Proof.
  revert bigdata. induction items as [|commodity items IH]; intros bigdata Hitems;
    [reflexivity|].
  destruct (Hitems commodity) as (Hok & Hfail & Hfuel); [now left|].
  simpl. rewrite (paginate_pages (pages_of commodity) fuel w commodity 0 bigdata).
  - rewrite fold_left_app. apply IH. intros c Hc. apply Hitems. now right.
  - exact Hok.
  - now apply get_page_raises.
  - exact Hfuel.
Qed.

Lemma fetch_concatenates_all_pages_witness :
  fetch 2 one_page_web (commodities Livestock) empty_frame
  = Some (fold_left concat
            (flat_map (fun _ => [sample_page]) (commodities Livestock)) empty_frame).
Proof.
  apply (fetch_concatenates_all_pages one_page_web (fun _ => [sample_page])).
  intros commodity _. split; [|split].
  - intros [|i] page Hi; [|discriminate]. injection Hi as <-. now exists [].
  - left. reflexivity.
  - simpl. lia.
Defined.

(** ** What a run does to the store *)

Section Adds.
Variable P : call * option exn -> Prop.

Lemma adds_ret {A} (a : A) : adds P (mret a).
Proof. intros h. exists []. simpl. now rewrite app_nil_r. Qed.

Lemma adds_issue {A} c (answer : history -> result A) :
  (forall st, P (c, st)) -> adds P (issue c answer).
Proof.
  intros Hc h. unfold issue. destruct (answer h); simpl; eexists; split;
    try reflexivity; repeat constructor; apply Hc.
Qed.

Lemma adds_lift {A} (r : result A) : adds P (lift r).
Proof.
  intros h. exists []. unfold lift. destruct r; simpl; now rewrite app_nil_r.
Qed.

Lemma adds_bind {A B} (m : script A) (k : A -> script B) :
  adds P m -> (forall a, adds P (k a)) -> adds P (m ≫= k).
Proof.
  intros Hm Hk h. unfold mbind, script_bind.
  destruct (Hm h) as (ext & Hext & HP).
  destruct (m h) as [[a|e|] h1]; simpl in *; subst h1; eauto.
  destruct (Hk a (h ++ ext)) as (ext' & Hext' & HP'). exists (ext ++ ext').
  rewrite Hext', app_assoc. split; [reflexivity|]. now apply Forall_app.
Qed.

Lemma adds_try_NotFound {A} (body handler : script A) :
  adds P body -> adds P handler -> adds P (try_except_NotFound body handler).
Proof.
  intros Hb Hh h. unfold try_except_NotFound.
  destruct (Hb h) as (ext & Hext & HP).
  destruct (body h) as [[a|e|] h1]; simpl in *; subst h1; eauto.
  destruct e; simpl; eauto.
  destruct (Hh (h ++ ext)) as (ext' & Hext' & HP'). exists (ext ++ ext').
  rewrite Hext', app_assoc. split; [reflexivity|]. now apply Forall_app.
Qed.

Lemma adds_try_Exception (body : script unit) :
  adds P body -> adds P (try_except_Exception body).
Proof.
  intros Hb h. unfold try_except_Exception.
  destruct (Hb h) as (ext & Hext & HP).
  destruct (body h) as [[a|e|] h1]; simpl in *; eauto.
Qed.

Lemma adds_wait_done fuel bq job :
  (forall st, P (JobReload job, st)) -> adds P (wait_done fuel bq job).
Proof.
  intros Hr. induction fuel as [|fuel IH]; intros h; simpl.
  - exists []. destruct (job_done bq h job); simpl; now rewrite app_nil_r.
  - destruct (job_done bq h job).
    + exists []. simpl. now rewrite app_nil_r.
    + apply (adds_bind (issue _ _) (fun _ => wait_done fuel bq job));
        [now apply adds_issue | intros _; exact IH].
Qed.
End Adds.

Ltac adds_steps :=
  repeat first
    [ apply adds_ret
    | apply adds_lift
    | apply adds_try_Exception
    | apply adds_try_NotFound
    | apply adds_bind; [|intros ?]
    | apply adds_wait_done; intros ?
    | apply adds_issue; intros ? ].

Lemma append_phase_allowed p now bq batch :
  adds (fun entry => allowed_call p now entry.1) (append_phase p now bq batch).
Proof.
  unfold append_phase, first_of_month_load, has_current_month_data, load_and_wait,
    query_to_dataframe.
  destruct (day now =? 1) eqn:Hday.
  - apply Z.eqb_eq in Hday. destruct p.
    + apply adds_bind; [adds_steps; simpl; auto|]. intros has.
      destruct (negb has); adds_steps; simpl; auto.
    + adds_steps; simpl; auto.
  - adds_steps; simpl; auto.
Qed.

Lemma reconcile_allowed p now bq fuel :
  adds (fun entry => allowed_call p now entry.1) (reconcile p now bq fuel).
Proof.
  unfold reconcile, query_to_dataframe. adds_steps; simpl; auto.
Qed.

Section Footprint.
Context {R : Runtime}.

(** The history of a run is what the append phase and the reconciliation
    pass add to the empty history. *)
Lemma run_history_adds (P : call * option exn -> Prop) p now w bq fuel :
  (forall batch, adds P (append_phase p now bq batch)) ->
  adds P (reconcile p now bq fuel) ->
  Forall P (run p now w bq fuel).2.
Proof.
  intros Ha Hr. unfold run, process.
  destruct (fetch _ _ _ _) as [bigdata|]; [|constructor].
  destruct (empty bigdata); [constructor|].
  destruct (normalize p bigdata) as [batch|e]; [|constructor].
  destruct (adds_bind P (append_phase p now bq batch) (fun _ => reconcile p now bq fuel)
              (Ha batch) (fun _ => Hr) []) as (ext & Hext & HP).
  simpl in Hext.
  destruct ((append_phase p now bq batch ≫= fun _ => reconcile p now bq fuel) [])
    as [[[]|e|] h]; simpl in *; now subst h.
Qed.

(** X13. Whatever the site and the store do, a run only makes the calls
    written in the script: it loads into, deletes and creates no table but
    the one of the current month, creates it with the fixed schema, reads
    the table of the previous month only on the first of the month, and
    counts rows only in fertilizer.py on the first of the month. *)
Theorem run_calls_are_allowed (p : pipeline) (now : datetime) (w : web)
    (bq : client) (fuel : nat) (c : call) (st : option exn) :
  (c, st) ∈ (run p now w bq fuel).2 -> allowed_call p now c.
Proof.
  intros Hin.
  pose proof (run_history_adds (fun entry => allowed_call p now entry.1) p now w bq fuel
                (append_phase_allowed p now bq) (reconcile_allowed p now bq fuel)) as H.
  rewrite Forall_forall in H. exact (H (c, st) Hin).
Qed.
End Footprint.

Lemma run_calls_are_allowed_witness :
  allowed_call Livestock april_first
    (LoadTable (Frame livestock_columns [stored_goat])
               (current_table Livestock april_first)).
Proof.
  apply (@run_calls_are_allowed ascii_runtime Livestock april_first one_page_web
           livestock_store_flaky 2 _ None).
  apply (bool_decide_unpack (_ ∈ _)). vm_compute. exact I.
Defined.

(** ** The drop of the reconciliation pass *)

Lemma split_unique (Q : call * option exn -> Prop) (a : history) x b :
  Forall (fun e => ~ Q e) a -> Forall (fun e => ~ Q e) b ->
  forall pre y post,
    a ++ x :: b = pre ++ y :: post -> Q y -> pre = a /\ y = x /\ post = b.
Proof.
  intros Ha Hb. induction Ha as [|a0 a Ha0 _ IH]; intros pre y post Heq Hy.
  - destruct pre as [|z pre]; simpl in Heq.
    + now injection Heq as <- <-.
    + injection Heq as <- ->. rewrite Forall_forall in Hb.
      exfalso. apply (Hb y); [|exact Hy]. apply elem_of_app. right. now left.
  - destruct pre as [|z pre]; simpl in Heq.
    + injection Heq as <- _. contradiction.
    + injection Heq as <- Heq. destruct (IH pre y post Heq Hy) as (-> & -> & ->).
      now repeat split.
Qed.

Lemma no_split (Q : call * option exn -> Prop) (l pre post : history) y :
  Forall (fun e => ~ Q e) l -> l = pre ++ y :: post -> Q y -> False.
Proof.
  intros Hl -> Hy. rewrite Forall_forall in Hl. apply (Hl y); [|exact Hy].
  apply elem_of_app. right. now left.
Qed.

Lemma append_phase_no_delete p now bq batch :
  adds (fun entry => ~ is_delete entry.1) (append_phase p now bq batch).
Proof.
  unfold append_phase, first_of_month_load, has_current_month_data, load_and_wait,
    query_to_dataframe.
  destruct (day now =? 1); [destruct p|].
  - apply adds_bind; [adds_steps; simpl; auto|]. intros has.
    destruct (negb has); adds_steps; simpl; auto.
  - adds_steps; simpl; auto.
  - adds_steps; simpl; auto.
Qed.

(** The reconciliation pass either stops at its read, or reads, drops the
    table and never drops again. *)
Lemma reconcile_structure p now bq fuel h :
  (exists e,
     (reconcile p now bq fuel h).2
     = h ++ [(QuerySelect (current_table p now) (reconcile_ordering p), Some e)])
  \/ (exists st rest,
        (reconcile p now bq fuel h).2
        = (h ++ [(QuerySelect (current_table p now) (reconcile_ordering p), None)])
          ++ (DeleteTable (current_table p now), st) :: rest
        /\ Forall (fun entry => ~ is_delete entry.1) rest).
Proof.
  destruct (query_select bq h (current_table p now) (reconcile_ordering p))
    as [data|e] eqn:Hq.
  2:{ left. exists e. unfold reconcile, query_to_dataframe. cbv zeta.
      unfold mbind at 1. unfold script_bind, issue at 1. now rewrite Hq. }
  right. unfold reconcile, query_to_dataframe. cbv zeta.
  unfold mbind at 1. unfold script_bind, issue at 1. rewrite Hq. cbv beta iota.
  unfold mbind at 1. unfold script_bind, issue at 1.
  match goal with |- context [delete_table bq ?h1 ?t] =>
    destruct (delete_table bq h1 t) as [[]|e] end; cbv beta iota.
  - match goal with |- context [?k (?h1 ++ [(DeleteTable ?t, None)])] =>
      assert (Hk : adds (fun entry => ~ is_delete entry.1) k) end.
    { adds_steps; simpl; auto. }
    match goal with |- context [?k (?h1 ++ [(DeleteTable ?t, None)])] =>
      destruct (Hk (h1 ++ [(DeleteTable t, None)])) as (ext & Hext & HP) end.
    exists None, ext. split; [|exact HP]. rewrite Hext. now rewrite <- app_assoc.
  - exists (Some e), []. split; [reflexivity | constructor].
Qed.

Section DropOnce.
Context {R : Runtime}.

(** X14. A run drops at most one table, the one of the current month, and
    only as the call that follows the successful read of the whole table by
    the reconciliation pass. *)
Theorem table_dropped_once_after_read (p : pipeline) (now : datetime) (w : web)
    (bq : client) (fuel : nat) (pre post : history) (t : table_id)
    (st : option exn) :
  (run p now w bq fuel).2 = pre ++ (DeleteTable t, st) :: post ->
  t = current_table p now
  /\ (exists pre',
        pre = pre' ++ [(QuerySelect (current_table p now) (reconcile_ordering p), None)])
  /\ Forall (fun entry => ~ is_delete entry.1) pre
  /\ Forall (fun entry => ~ is_delete entry.1) post.
Proof.
  unfold run, process.
  destruct (fetch _ _ _ _) as [bigdata|]; [|now destruct pre].
  destruct (empty bigdata); [now destruct pre|].
  destruct (normalize p bigdata) as [batch|e]; [|now destruct pre].
  unfold mbind, script_bind.
  destruct (append_phase_no_delete p now bq batch []) as (h0 & Hh0 & Hno).
  simpl in Hh0.
  destruct (append_phase p now bq batch []) as [[[]|e|] h0'] eqn:Happ;
    simpl in Hh0; subst h0';
    try (simpl; intros Heq; exfalso;
         exact (no_split (fun entry => is_delete entry.1) _ _ _ _ Hno Heq I)).
  destruct (reconcile_structure p now bq fuel h0) as [(e & Hrec)|(st' & rest & Hrec & Hrest)].
  - assert (Hall : Forall (fun entry => ~ is_delete entry.1)
                     (reconcile p now bq fuel h0).2).
    { rewrite Hrec. apply Forall_app. split; [exact Hno|]. repeat constructor. auto. }
    intros Heq. exfalso.
    apply (no_split (fun entry => is_delete entry.1) _ pre post (DeleteTable t, st) Hall);
      [|exact I].
    rewrite <- Heq. now destruct (reconcile p now bq fuel h0) as [[[]|?|] ?].
  - intros Heq.
    assert (Heq' : (h0 ++ [(QuerySelect (current_table p now) (reconcile_ordering p), None)])
                   ++ (DeleteTable (current_table p now), st') :: rest
                   = pre ++ (DeleteTable t, st) :: post).
    { rewrite <- Hrec, <- Heq. now destruct (reconcile p now bq fuel h0) as [[[]|?|] ?]. }
    assert (Hpre : Forall (fun entry => ~ is_delete entry.1)
              (h0 ++ [(QuerySelect (current_table p now) (reconcile_ordering p), None)])).
    { apply Forall_app. split; [exact Hno|]. repeat constructor. auto. }
    destruct (split_unique (fun entry => is_delete entry.1) _ _ _ Hpre Hrest _ _ _ Heq' I)
      as (-> & Hy & ->).
    injection Hy as -> _. split; [reflexivity|]. split; [now exists h0|]. now split.
Qed.
End DropOnce.

Lemma table_dropped_once_after_read_witness :
  current_table Livestock april_first = current_table Livestock april_first
  /\ (exists pre',
        [(QuerySelect (prev_table Livestock april_first) Unordered, Some NotFound);
         (LoadTable livestock_batch (current_table Livestock april_first),
          Some GoogleAPIError);
         (QuerySelect (current_table Livestock april_first) Unordered, None)]
        = pre' ++ [(QuerySelect (current_table Livestock april_first)
                                (reconcile_ordering Livestock), None)])
  /\ Forall (fun entry => ~ is_delete entry.1)
       [(QuerySelect (prev_table Livestock april_first) Unordered, Some NotFound);
        (LoadTable livestock_batch (current_table Livestock april_first),
         Some GoogleAPIError);
        (QuerySelect (current_table Livestock april_first) Unordered, @None exn)]
  /\ Forall (fun entry => ~ is_delete entry.1)
       [(CreateTable (current_table Livestock april_first) (schema Livestock), None);
        (LoadTable (Frame livestock_columns [stored_goat])
                   (current_table Livestock april_first), None);
        (JobReload 5, @None exn)].
Proof.
  apply (@table_dropped_once_after_read ascii_runtime Livestock april_first
           one_page_web livestock_store_flaky 2 _ _ _ None).
  vm_compute. reflexivity.
Defined.

(** ** The rebuild of the reconciliation pass *)

(** X15. The table is dropped before its rows are de-duplicated: when the
    frame read back lacks a column of the key, the reconciliation pass
    stops with the [KeyError] of [duplicated] right after the drop, and
    neither creates the table again nor loads anything into it. *)
Theorem reconcile_fails_after_drop (p : pipeline) (now : datetime) (bq : client)
    (fuel : nat) (h : history) (data : frame) :
  query_select bq h (current_table p now) (reconcile_ordering p) = Ok data ->
  delete_table bq
    (h ++ [(QuerySelect (current_table p now) (reconcile_ordering p), None)])
    (current_table p now) = Ok tt ->
  ~ Forall (fun l => l ∈ columns data) (dedup_subset p) ->
  reconcile p now bq fuel h
  = (Raised KeyError,
     h ++ [(QuerySelect (current_table p now) (reconcile_ordering p), None);
           (DeleteTable (current_table p now), None)]).
Proof.
  intros Hq Hd Hcols. unfold reconcile, query_to_dataframe. cbv zeta.
  unfold mbind at 1. unfold script_bind, issue at 1. rewrite Hq. cbv beta iota.
  unfold mbind at 1. unfold script_bind, issue at 1. rewrite Hd. cbv beta iota.
  unfold mbind at 1. unfold script_bind, lift at 1, duplicated.
  rewrite decide_False by exact Hcols. now rewrite <- app_assoc.
Qed.

Lemma reconcile_fails_after_drop_witness :
  reconcile Livestock april_first narrow_store 2 []
  = (Raised KeyError,
     [] ++ [(QuerySelect (current_table Livestock april_first)
                         (reconcile_ordering Livestock), None);
            (DeleteTable (current_table Livestock april_first), None)]).
Proof.
  apply (reconcile_fails_after_drop Livestock april_first narrow_store 2 []
           (Frame [str "commodity"; str "market"; str "date"]
                  [[Text (str "Goat"); Text (str "Garissa"); Date 2024 4 1]])).
  - reflexivity.
  - reflexivity.
  - apply (bool_decide_eq_false (Forall _ _)). vm_compute. reflexivity.
Defined.

(** X16. Once the table is read and dropped and the rows de-duplicated,
    the pass asks for the creation of the table with the fixed schema and
    then, whether that creation succeeded or raised, loads exactly the
    de-duplicated rows into the table. *)
Theorem reconcile_loads_deduplicated (p : pipeline) (now : datetime) (bq : client)
    (fuel : nat) (h : history) (data data' : frame) :
  query_select bq h (current_table p now) (reconcile_ordering p) = Ok data ->
  delete_table bq
    (h ++ [(QuerySelect (current_table p now) (reconcile_ordering p), None)])
    (current_table p now) = Ok tt ->
  drop_duplicates (dedup_subset p) data = Ok data' ->
  exists created loaded rest,
    (reconcile p now bq fuel h).2
    = h ++ [(QuerySelect (current_table p now) (reconcile_ordering p), None);
            (DeleteTable (current_table p now), None);
            (CreateTable (current_table p now) (schema p), created);
            (LoadTable data' (current_table p now), loaded)] ++ rest.
Proof.
  intros Hq Hd Hdd. unfold reconcile, query_to_dataframe. cbv zeta.
  unfold mbind at 1. unfold script_bind, issue at 1. rewrite Hq. cbv beta iota.
  unfold mbind at 1. unfold script_bind, issue at 1. rewrite Hd. cbv beta iota.
  assert (Hdup : exists mask, duplicated (dedup_subset p) data = Ok mask).
  { unfold drop_duplicates in Hdd. destruct (duplicated _ data) as [mask|];
      [now exists mask | discriminate]. }
  destruct Hdup as [mask Hdup].
  unfold mbind at 1. unfold script_bind, lift at 1. rewrite Hdup. cbv beta iota.
  unfold mbind at 1. unfold script_bind, lift at 1. rewrite Hdd. cbv beta iota.
  unfold mbind at 1. unfold script_bind, try_except_Exception, issue at 1.
  match goal with |- context [create_table bq ?h2 ?t ?s] =>
    set (created := create_table bq h2 t s) end.
  destruct created as [[]|e]; cbv beta iota.
  - unfold mbind at 1. unfold script_bind, issue at 1.
    destruct (load_table_from_dataframe bq _ data' _) as [job|e]; cbv beta iota.
    + destruct (extends_wait_done fuel bq job
        ((((h ++ [(QuerySelect (current_table p now) (reconcile_ordering p), None)])
           ++ [(DeleteTable (current_table p now), None)])
          ++ [(CreateTable (current_table p now) (schema p), None)])
         ++ [(LoadTable data' (current_table p now), None)])) as [rest Hr].
      exists None, None, rest. rewrite Hr. now rewrite <- !app_assoc.
    + exists None, (Some e), []. simpl. now rewrite <- !app_assoc.
  - unfold mbind at 1. unfold script_bind, issue at 1.
    destruct (load_table_from_dataframe bq _ data' _) as [job|e']; cbv beta iota.
    + destruct (extends_wait_done fuel bq job
        ((((h ++ [(QuerySelect (current_table p now) (reconcile_ordering p), None)])
           ++ [(DeleteTable (current_table p now), None)])
          ++ [(CreateTable (current_table p now) (schema p), Some e)])
         ++ [(LoadTable data' (current_table p now), None)])) as [rest Hr].
      exists (Some e), None, rest. rewrite Hr. now rewrite <- !app_assoc.
    + exists (Some e), (Some e'), []. simpl. now rewrite <- !app_assoc.
Qed.

Lemma reconcile_loads_deduplicated_witness :
  exists created loaded rest,
    (reconcile Livestock april_first livestock_store 2 []).2
    = [] ++ [(QuerySelect (current_table Livestock april_first)
                          (reconcile_ordering Livestock), None);
             (DeleteTable (current_table Livestock april_first), None);
             (CreateTable (current_table Livestock april_first) (schema Livestock),
              created);
             (LoadTable (Frame livestock_columns [stored_goat])
                        (current_table Livestock april_first), loaded)] ++ rest.
Proof.
  apply (reconcile_loads_deduplicated Livestock april_first livestock_store 2 []
           (Frame livestock_columns [stored_goat])
           (Frame livestock_columns [stored_goat])).
  - reflexivity.
  - reflexivity.
  - vm_compute. reflexivity.
Defined.

(** ** JobWaiter *)

(** X17. The wait polls the job until it is done: when the job is seen
    done after [k] reloads that succeed, and not before, the loop makes
    exactly those [k] reloads and ends normally. *)
Theorem wait_done_polls_until_done (bq : client) (job k : nat) :
  forall (fuel : nat) (h : history),
    (forall i, (i < k)%nat ->
       job_done bq (h ++ replicate i (JobReload job, None)) job = false
       /\ job_reload bq (h ++ replicate i (JobReload job, None)) job = Ok tt) ->
    job_done bq (h ++ replicate k (JobReload job, None)) job = true ->
    (k <= fuel)%nat ->
    wait_done fuel bq job h = (Next tt, h ++ replicate k (JobReload job, None)).
Proof.
  induction k as [|k IH]; intros fuel h Hbusy Hdone Hfuel.
  - simpl in *. rewrite app_nil_r in *. destruct fuel; simpl; now rewrite Hdone.
  - destruct fuel as [|fuel]; [lia|].
    destruct (Hbusy 0%nat) as [H0 H1]; [lia|]. simpl in H0, H1.
    rewrite app_nil_r in H0, H1. simpl. rewrite H0.
    unfold mbind, script_bind, issue. rewrite H1.
    rewrite (IH fuel (h ++ [(JobReload job, None)])).
    + now rewrite <- app_assoc.
    + intros i Hi. destruct (Hbusy (S i)) as [Hd Hr]; [lia|].
      simpl in Hd, Hr. rewrite <- app_assoc. now split.
    + rewrite <- app_assoc. exact Hdone.
    + lia.
Qed.

Lemma wait_done_polls_until_done_witness :
  wait_done 3 livestock_store 0 [(LoadTable deduplicated
                                    (current_table Livestock april_first), None)]
  = (Next tt,
     [(LoadTable deduplicated (current_table Livestock april_first), None)]
     ++ replicate 1 (JobReload 0, None)).
Proof.
  apply (wait_done_polls_until_done livestock_store 0 1 3).
  - intros [|i] Hi; [|lia]. now split.
  - reflexivity.
  - lia.
Defined.

(** X18. The wait has no bound of its own: on a job that is never seen
    done it is still polling after any number of reloads. *)
Theorem wait_done_never_gives_up (bq : client) (job : nat) :
  (forall h, job_done bq h job = false) ->
  (forall h, job_reload bq h job = Ok tt) ->
  forall (fuel : nat) (h : history),
    wait_done fuel bq job h = (Stalled, h ++ replicate fuel (JobReload job, None)).
Proof.
  intros Hbusy Hreload. induction fuel as [|fuel IH]; intros h; simpl.
  - now rewrite Hbusy, app_nil_r.
  - rewrite Hbusy. unfold mbind, script_bind, issue. rewrite Hreload, IH.
    now rewrite <- app_assoc.
Qed.

Lemma wait_done_never_gives_up_witness :
  wait_done 50 stalling_store 0 []
  = (Stalled, [] ++ replicate 50 (JobReload 0, None)).
Proof.
  apply (wait_done_never_gives_up stalling_store 0); reflexivity.
Defined.

(** ** The first of the month *)

(** X19. On the first of the month no failure of the store can stop a run
    before the reconciliation pass, but one: in fertilizer.py, a count
    query that raises something else than [NotFound]. *)
Theorem first_of_month_append_phase_outcomes (p : pipeline) (now : datetime)
    (bq : client) (batch : frame) (fl : flow unit) (h0 : history) :
  day now = 1 ->
  append_phase p now bq batch [] = (fl, h0) ->
  fl = Next tt
  \/ (p = Fertilizer
      /\ exists e, fl = Raised e /\ e <> NotFound
                   /\ ends_raising
                        (QueryCount (current_table p now) (month now) (year now)) e h0).
Proof.
  intros Hday Happ.
  destruct (append_phase_shapes p now bq batch fl h0 Happ)
    as [[-> _]|[[-> _]|[[-> _]|(c & e & -> & Hr & [[Hd _]|(_ & -> & He & ->)])]]];
    [now left | now left | now left | contradiction |].
  right. split; [reflexivity|]. now exists e.
Qed.

Lemma first_of_month_append_phase_outcomes_witness :
  Raised GoogleAPIError = Next tt
  \/ (Fertilizer = Fertilizer
      /\ exists e, Raised GoogleAPIError = @Raised unit e /\ e <> NotFound
                   /\ ends_raising
                        (QueryCount (current_table Fertilizer april_first)
                                    (month april_first) (year april_first)) e
                        [(QueryCount (current_table Fertilizer april_first) 4 2024,
                          Some GoogleAPIError)]).
Proof.
  apply (first_of_month_append_phase_outcomes Fertilizer april_first
           fertilizer_store_down fertilizer_batch).
  - reflexivity.
  - vm_compute. reflexivity.
Defined.

(** X20. What the first-of-month block hands to the load: the rows of the
    previous month followed by the batch when the previous table is read,
    the batch alone when that table does not exist, and nothing at all, no
    load being issued, when the read raises anything else. *)
Theorem carry_forward_cases (p : pipeline) (now : datetime) (bq : client)
    (batch : frame) (h : history) :
  match query_select bq h (prev_table p now) (prev_ordering p) with
  | Ok prev_data =>
      exists loaded rest,
        (first_of_month_load p now bq batch h).2
        = h ++ (QuerySelect (prev_table p now) (prev_ordering p), None)
               :: (LoadTable (concat prev_data batch) (current_table p now), loaded)
               :: rest
  | Raise NotFound =>
      exists loaded rest,
        (first_of_month_load p now bq batch h).2
        = h ++ (QuerySelect (prev_table p now) (prev_ordering p), Some NotFound)
               :: (LoadTable batch (current_table p now), loaded) :: rest
  | Raise e =>
      first_of_month_load p now bq batch h
      = (Next tt, h ++ [(QuerySelect (prev_table p now) (prev_ordering p), Some e)])
  end.
Proof.
  assert (Hload : forall data h1,
    exists loaded rest,
      (try_except_Exception (load_and_wait bq data (current_table p now)) h1).2
      = h1 ++ (LoadTable data (current_table p now), loaded) :: rest).
  { intros data h1. unfold try_except_Exception.
    pose proof (load_and_wait_cases bq data (current_table p now) h1) as Hc.
    destruct (load_table_from_dataframe bq h1 data _) as [job|e]; [|rewrite Hc; simpl; eauto].
    destruct (job_result bq _ job) as [[]|e]; rewrite Hc; simpl; eauto. }
  unfold first_of_month_load.
  destruct (query_select bq h _ _) as [prev_data|e] eqn:Hq.
  - destruct (Hload (concat prev_data batch)
                (h ++ [(QuerySelect (prev_table p now) (prev_ordering p), None)]))
      as (loaded & rest & Hl).
    exists loaded, rest. rewrite <- app_assoc in Hl. simpl in Hl. rewrite <- Hl.
    unfold try_except_Exception, try_except_NotFound, query_to_dataframe.
    unfold mbind at 1. unfold script_bind. unfold mbind at 1. unfold script_bind, issue.
    now rewrite Hq.
  - assert (Hother : e <> NotFound ->
      try_except_Exception
        (try_except_NotFound
           (query_to_dataframe bq (prev_table p now) (prev_ordering p)
            ≫= fun prev_data => mret (concat prev_data batch)) (mret batch)
         ≫= fun bigdata => load_and_wait bq bigdata (current_table p now)) h
      = (Next tt, h ++ [(QuerySelect (prev_table p now) (prev_ordering p), Some e)])).
    { intros He. unfold try_except_Exception, try_except_NotFound, query_to_dataframe.
      unfold mbind at 1. unfold script_bind. unfold mbind at 1. unfold script_bind, issue.
      rewrite Hq. now destruct e. }
    destruct e; try (apply Hother; discriminate).
    destruct (Hload batch
                (h ++ [(QuerySelect (prev_table p now) (prev_ordering p), Some NotFound)]))
      as (loaded & rest & Hl).
    exists loaded, rest. rewrite <- app_assoc in Hl. simpl in Hl. rewrite <- Hl.
    unfold try_except_Exception, try_except_NotFound, query_to_dataframe.
    unfold mbind at 1. unfold script_bind. unfold mbind at 1. unfold script_bind, issue.
    now rewrite Hq.
Qed.

(** ** The retry schedule *)

Module RetrySchedule.
Import Transport.





End RetrySchedule.

(** ** Normalizer, again *)

Lemma setitem_cell_origin i j values f f' :
  setitem i values f = Ok f' -> i <> j ->
  forall r', r' ∈ rows f' -> exists r, r ∈ rows f /\ cell_at j r' = cell_at j r.
Proof.
  unfold setitem. destruct (decide _); [|discriminate]. intros [= <-] Hij r' Hr'.
  simpl in Hr'. apply list_elem_of_lookup_1 in Hr' as [n Hn].
  apply lookup_zip_with_Some in Hn as (r & v & -> & Hr & _).
  exists r. split; [exact (list_elem_of_lookup_2 _ _ _ Hr)|].
  unfold cell_at. now rewrite list_lookup_insert_ne by exact Hij.
Qed.

Section NormalizerErrors.
Context {R : Runtime}.

Lemma to_datetime_raises values e : to_datetime values = Raise e -> e = ValueError.
Proof.
  revert e. induction values as [|v values IH]; intros e; simpl; [discriminate|].
  destruct (to_datetime values) as [ds|e'].
  - destruct v as [|s|q|y m d]; simpl; try discriminate.
    + destruct (parse_date s) as [[[y m] d]|]; simpl; [discriminate | congruence].
    + destruct (date_of_number q) as [[[y m] d]|]; simpl; [discriminate | congruence].
  - specialize (IH e' eq_refl). subst e'.
    destruct v as [|s|q|y m d]; simpl; try congruence.
    + destruct (parse_date s) as [[[y m] d]|]; simpl; congruence.
    + destruct (date_of_number q) as [[[y m] d]|]; simpl; congruence.
Qed.

Lemma to_datetime_bad_string values s :
  Text s ∈ values -> parse_date s = None -> to_datetime values = Raise ValueError.
Proof.
  intros Hin Hs. destruct (to_datetime values) as [ds|e] eqn:E.
  - exfalso. revert ds E. induction values as [|v values IH]; intros ds E;
      [inversion Hin|].
    simpl in E. apply elem_of_cons in Hin as [<-|Hin].
    + simpl in E. rewrite Hs in E. discriminate.
    + destruct (to_datetime values) as [ds'|e'].
      * now apply (IH Hin ds').
      * destruct v as [|s'|q|y m d]; simpl in E; try discriminate.
        -- destruct (parse_date s') as [[[y m] d]|]; discriminate.
        -- destruct (date_of_number q) as [[[y m] d]|]; discriminate.
  - now rewrite (to_datetime_raises values e E).
Qed.

(** X22. One date that cannot be parsed fails the whole run: when a row of
    the fetched frame holds, under the one column that cleans to [date], a
    string that [pd.to_datetime] rejects, the run ends with [ValueError]
    before any call on the store. *)
Theorem unparseable_date_fails_run (p : pipeline) (now : datetime) (w : web)
    (bq : client) (fuel : nat) (bigdata : frame) (i : nat) (r : list cell)
    (s : text) :
  fetch fuel w (commodities p) empty_frame = Some bigdata ->
  empty bigdata = false ->
  positions (str "date") (map clean_name (columns bigdata)) 0 = [i] ->
  r ∈ rows bigdata ->
  cell_at i r = Text s ->
  parse_date s = None ->
  run p now w bq fuel = (Traceback ValueError, []).
Proof.
  intros Hfetch Hne Hpos Hr Hcell Hs. unfold run, process. rewrite Hfetch, Hne.
  assert (Hnorm : normalize p bigdata = Raise ValueError).
  { unfold normalize, standardize_date, getitem. simpl. rewrite Hpos. simpl.
    rewrite (to_datetime_bad_string _ s); [reflexivity | | exact Hs].
    rewrite <- Hcell. apply list_elem_of_In, in_map, list_elem_of_In, Hr. }
  now rewrite Hnorm.
Qed.

Lemma str_accessor_has_text values vs :
  str_accessor values = Ok vs -> exists s, Text s ∈ values.
Proof.
  unfold str_accessor. destruct (existsb _ values) eqn:E; [|discriminate].
  intros _. apply existsb_exists in E as (c & Hc & Ht).
  destruct c as [|s| |]; try discriminate. exists s. now apply list_elem_of_In.
Qed.

Lemma standardize_price_text name f f' :
  standardize_price name f = Ok f' ->
  exists i values,
    positions name (columns f) 0 = [i]
    /\ setitem i values f = Ok f'
    /\ exists r s, r ∈ rows f /\ cell_at i r = Text s.
Proof.
  unfold standardize_price, getitem.
  destruct (positions _ (columns f) 0) as [|i [|? ?]] eqn:Hp; simpl; try discriminate.
  destruct (str_accessor _) as [vs|] eqn:Hvs; simpl; [|discriminate].
  intros Hset. exists i. eexists. split; [reflexivity|]. split; [exact Hset|].
  destruct (str_accessor_has_text _ _ Hvs) as [s Hs].
  apply list_elem_of_In, in_map_iff in Hs as (r & Hcell & Hr).
  exists r, s. split; [now apply list_elem_of_In | exact Hcell].
Qed.

(** X23. The normalisation goes through only if the wholesale column and
    the retail column of the fetched frame each hold at least one string:
    a column that [pd.read_html] read as numbers or as empty has no [.str]
    accessor, and the run stops there. *)
Theorem normalized_prices_came_from_text (p : pipeline) (bigdata batch : frame) :
  normalize p bigdata = Ok batch ->
  (exists r s, r ∈ rows bigdata
               /\ lookup_cell (map clean_name (columns bigdata)) (str "wholesale") r
                  = Text s)
  /\ (exists r s, r ∈ rows bigdata
                  /\ lookup_cell (map clean_name (columns bigdata)) (str "retail") r
                     = Text s).
Proof.
  unfold normalize.
  destruct (standardize_date _) as [f1|] eqn:E1; simpl; [|discriminate].
  destruct (standardize_price _ f1) as [f2|] eqn:E2; simpl; [|discriminate].
  destruct (standardize_price _ f2) as [f3|] eqn:E3; simpl; [|discriminate].
  intros _.
  destruct (standardize_date_spec _ _ E1) as (d & vd & Pd & _ & S1).
  destruct (standardize_price_text _ _ _ E2) as (i & vi & Pi & S2 & r1 & s1 & Hr1 & Hc1).
  destruct (standardize_price_text _ _ _ E3) as (j & vj & Pj & _ & r2 & s2 & Hr2 & Hc2).
  pose proof (setitem_columns _ _ _ _ S1) as C1. simpl in C1, Pd.
  pose proof (setitem_columns _ _ _ _ S2) as C2.
  rewrite C1 in Pi. rewrite C2, C1 in Pj.
  set (cols := map clean_name (columns bigdata)) in *.
  assert (Hdi : d <> i).
  { intros ->. apply positions_head_label in Pd, Pi. rewrite Pd in Pi. discriminate. }
  assert (Hdj : d <> j).
  { intros ->. apply positions_head_label in Pd, Pj. rewrite Pd in Pj. discriminate. }
  assert (Hij : i <> j).
  { intros ->. apply positions_head_label in Pi, Pj. rewrite Pi in Pj. discriminate. }
  split.
  - destruct (setitem_cell_origin _ _ _ _ _ S1 Hdi r1 Hr1) as (r0 & Hr0 & Heq).
    exists r0, s1. split; [exact Hr0|]. unfold lookup_cell. rewrite Pi.
    now rewrite <- Heq.
  - destruct (setitem_cell_origin _ _ _ _ _ S2 Hij r2 Hr2) as (r1' & Hr1' & Heq2).
    destruct (setitem_cell_origin _ _ _ _ _ S1 Hdj r1' Hr1') as (r0 & Hr0 & Heq1).
    exists r0, s2. split; [exact Hr0|]. unfold lookup_cell. rewrite Pj.
    now rewrite <- Heq1, <- Heq2.
Qed.
End NormalizerErrors.

Lemma unparseable_date_fails_run_witness :
  @run ascii_runtime Livestock march_seventh bad_date_web livestock_store 2
  = (Traceback ValueError, []).
Proof.
  apply (@unparseable_date_fails_run ascii_runtime Livestock march_seventh
           bad_date_web livestock_store 2
           (fold_left concat (replicate 5 bad_date_page) empty_frame) 3
           [Text (str "Sheep"); Text (str "5000"); Text (str "5500");
            Text (str "01/04/2024")]
           (str "01/04/2024")).
  - vm_compute. reflexivity.
  - vm_compute. reflexivity.
  - vm_compute. reflexivity.
  - apply (bool_decide_unpack (_ ∈ _)). vm_compute. exact I.
  - reflexivity.
  - reflexivity.
Defined.

Lemma normalized_prices_came_from_text_witness :
  (exists r s, r ∈ rows fertilizer_raw
               /\ lookup_cell (map (@clean_name ascii_runtime) (columns fertilizer_raw))
                    (str "wholesale") r = Text s)
  /\ (exists r s, r ∈ rows fertilizer_raw
                  /\ lookup_cell (map (@clean_name ascii_runtime) (columns fertilizer_raw))
                       (str "retail") r = Text s).
Proof.
  apply (@normalized_prices_came_from_text ascii_runtime Fertilizer fertilizer_raw
           fertilizer_batch).
  vm_compute. reflexivity.
Defined.
